(** * ImageAI editor: history manager, canvas selection bridge, autosave
      and the ShapeTool button

    Shallow embedding of
      - [useHistory]      (src/features/editor/components/shape-tool.tsx, l.219-245)
      - [useAutosave]     (same file, l.287-301)
      - [ShapeTool]       (same file, l.13-19)
      - [useCanvasEvents] (src/features/hooks/use-canvas-events.ts)

    JavaScript numbers that hold array indices are modelled as [Z], arrays
    as [list], [undefined] results as [None].  React state setters do not
    mutate the values a callback closed over: a callback reads the snapshot
    of the render that created it and emits setter calls, which React
    commits before the next render. *)

From stdpp Require Import base list strings gmap functions.
From Stdlib Require Import ZArith Lia.
From Stdlib Require QArith.

Local Open Scope Z_scope.

(** ** JavaScript arrays *)

Module JsArray.
Section JsArray.
Context {A : Type}.

Definition length (l : list A) : Z := Z.of_nat (List.length l).

(** Relative index of [Array.prototype.slice]: a negative argument counts
    from the end, and the result is clamped to [0 .. len]. *)
Definition relative_index (len k : Z) : Z :=
  if k <? 0 then Z.max (len + k) 0 else Z.min k len.

(** [l.slice(start, end)] *)
Definition slice (l : list A) (start end_ : Z) : list A :=
  let len := length l in
  let k := relative_index len start in
  let final := relative_index len end_ in
  let count := Z.max (final - k) 0 in
  take (Z.to_nat count) (drop (Z.to_nat k) l).

(** [l.push(x)], as the array it leaves behind *)
Definition push (l : list A) (x : A) : list A := l ++ [x].

(** [l[k]] for an integer [k]: [undefined] outside [0 .. len-1] *)
Definition get (l : list A) (k : Z) : option A :=
  if k <? 0 then None else l !! Z.to_nat k.
End JsArray.
End JsArray.

(** ** useHistory *)

Module History.
Section History.
Context {CanvasState : Type}.

(** The two [useState] cells of the hook. *)
Record HistoryState : Type := mkHistory {
  history : list CanvasState;
  currentIndex : Z
}.

(** [useState<CanvasState[]>([])], [useState(-1)] *)
Definition initial : HistoryState := mkHistory [] (-1).

(** A call of one of the two setters. *)
Inductive SetCall : Type :=
| SetHistory (h : list CanvasState)
| SetCurrentIndex (i : Z).

(** A callback created in a render: it reads that render's snapshot and
    produces a result together with the setter calls it made, in order. *)
Definition Callback (R : Type) : Type := HistoryState -> R * list SetCall.

Definition ret {R} (r : R) : Callback R := fun _ => (r, []).
Definition bind {R S} (k : R -> Callback S) (m : Callback R) : Callback S :=
  fun snap =>
    let '(r, w1) := m snap in
    let '(s, w2) := k r snap in
    (s, w1 ++ w2).
#[global] Instance callback_ret : MRet Callback := @ret.
#[global] Instance callback_bind : MBind Callback := @bind.

Definition readHistory : Callback (list CanvasState) :=
  fun snap => (history snap, []).
Definition readCurrentIndex : Callback Z :=
  fun snap => (currentIndex snap, []).
Definition setHistory (h : list CanvasState) : Callback unit :=
  fun _ => (tt, [SetHistory h]).
Definition setCurrentIndex (i : Z) : Callback unit :=
  fun _ => (tt, [SetCurrentIndex i]).
End History.

Arguments HistoryState : clear implicits.
Arguments SetCall : clear implicits.
Arguments Callback : clear implicits.

Section Operations.
Context {CanvasState : Type}.

(** l.223-228 *)
Definition pushState (state : CanvasState) : Callback CanvasState unit :=
  history ← readHistory;
  currentIndex ← readCurrentIndex;
  let newHistory := JsArray.slice history 0 (currentIndex + 1) in
  let newHistory := JsArray.push newHistory state in
  setHistory newHistory;;
  setCurrentIndex (JsArray.length newHistory - 1).

(** l.230-235: when the test fails the function falls off its end and
    returns [undefined]. *)
Definition undo : Callback CanvasState (option CanvasState) :=
  history ← readHistory;
  currentIndex ← readCurrentIndex;
  if 0 <? currentIndex then
    setCurrentIndex (currentIndex - 1);;
    mret (JsArray.get history (currentIndex - 1))
  else mret None.

(** l.237-242 *)
Definition redo : Callback CanvasState (option CanvasState) :=
  history ← readHistory;
  currentIndex ← readCurrentIndex;
  if currentIndex <? JsArray.length history - 1 then
    setCurrentIndex (currentIndex + 1);;
    mret (JsArray.get history (currentIndex + 1))
  else mret None.

(** React applies the queued setter calls in order. *)
Definition apply_set (st : HistoryState CanvasState) (c : SetCall CanvasState)
  : HistoryState CanvasState :=
  match c with
  | SetHistory h => mkHistory h (currentIndex st)
  | SetCurrentIndex i => mkHistory (history st) i
  end.

Definition commit (st : HistoryState CanvasState)
    (calls : list (SetCall CanvasState)) : HistoryState CanvasState :=
  foldl apply_set st calls.

(** One callback invoked on the state [st] of the current render: its
    result, and the state of the next render. *)
Definition invoke {R} (cb : Callback CanvasState R) (st : HistoryState CanvasState)
  : R * HistoryState CanvasState :=
  let '(r, calls) := cb st in (r, commit st calls).

Inductive Op : Type :=
| OpPushState (state : CanvasState)
| OpUndo
| OpRedo.

Definition setCallsOf (op : Op) (st : HistoryState CanvasState)
  : list (SetCall CanvasState) :=
  match op with
  | OpPushState s => snd (pushState s st)
  | OpUndo => snd (undo st)
  | OpRedo => snd (redo st)
  end.

Definition isPushState (op : Op) : bool :=
  match op with
  | OpPushState _ => true
  | _ => false
  end.

(** An operation in a render of its own. *)
Definition step (st : HistoryState CanvasState) (op : Op) : HistoryState CanvasState :=
  commit st (setCallsOf op st).

(** A sequence of operations, one per render. *)
Definition run (ops : list Op) (st : HistoryState CanvasState)
  : HistoryState CanvasState :=
  foldl step st ops.

(** Several operations fired from the same render (for instance from one
    event handler): all of them close over the same snapshot, and their
    setter calls are committed together. *)
Definition step_batch (st : HistoryState CanvasState) (ops : list Op)
  : HistoryState CanvasState :=
  commit st (concat (map (fun op => setCallsOf op st) ops)).

Definition run_batches (batches : list (list Op)) (st : HistoryState CanvasState)
  : HistoryState CanvasState :=
  foldl step_batch st batches.

(** The index is a position of the array, or -1 when nothing was pushed. *)
Definition history_inv (st : HistoryState CanvasState) : Prop :=
  -1 <= currentIndex st <= JsArray.length (history st) - 1 /\
  (history st <> [] -> 0 <= currentIndex st).

(** The indices the callbacks of a render with snapshot [st] can set
    besides the one of [pushState]: the one [undo] sets, the one [redo]
    sets. *)
Definition moved_index (st : HistoryState CanvasState) (i : Z) : Prop :=
  (0 < currentIndex st /\ i = currentIndex st - 1) \/
  (currentIndex st < JsArray.length (history st) - 1 /\ i = currentIndex st + 1).

(** What the pending state [acc] can be while the setter calls of a batch
    fired from snapshot [st] are applied one after the other. *)
Definition batch_acc_ok (st acc : HistoryState CanvasState) : Prop :=
  (history acc = history st /\
   (currentIndex acc = currentIndex st \/ moved_index st (currentIndex acc))) \/
  (exists s,
     history acc = JsArray.push (JsArray.slice (history st) 0 (currentIndex st + 1)) s /\
     (currentIndex acc = JsArray.length (history acc) - 1 \/
      moved_index st (currentIndex acc))).
End Operations.
End History.

(** ** useCanvasEvents *)

Module CanvasEvents.
Section CanvasEvents.
(** [fabric.Object], references to [fabric.Canvas] objects, and the
    identities of the two callbacks passed as props. *)
Context {Object CanvasRef SetSelectedFn ClearFn : Type}.
Context `{EqDecision CanvasRef}.

(** The values [e.selected] ranges over: [fabric.Object[] | undefined]. *)
Inductive JsValue : Type :=
| Undefined
| Array (objs : list Object).

Definition truthy (v : JsValue) : bool :=
  match v with
  | Undefined => false
  | Array _ => true
  end.

(** [a || b] *)
Definition js_or (a b : JsValue) : JsValue := if truthy a then a else b.

Record IEvent : Type := mkEvent { selected : JsValue }.

(** What a handler does that its environment can observe: the calls of
    the callback props, with their argument. *)
Inductive Call : Type :=
| CallSetSelectedObjects (f : SetSelectedFn) (objects : JsValue)
| CallClearSelection (f : ClearFn).

Definition Handler : Type := IEvent -> list Call.

Record UseCanvasEventsProps : Type := mkProps {
  canvas : option CanvasRef;                 (* [None] is [null] *)
  setSelectedObjects : SetSelectedFn;
  clearSelectionCallBack : option ClearFn    (* optional prop *)
}.

(** [f?.()] *)
Definition optional_call (f : option ClearFn) : list Call :=
  match f with
  | Some g => [CallClearSelection g]
  | None => []
  end.

(** The three arrow functions of l.16-25. *)
Definition on_selection_created (p : UseCanvasEventsProps) : Handler :=
  fun e => [CallSetSelectedObjects (setSelectedObjects p) (js_or (selected e) (Array []))].

Definition on_selection_updated (p : UseCanvasEventsProps) : Handler :=
  fun e => [CallSetSelectedObjects (setSelectedObjects p) (js_or (selected e) (Array []))].

Definition on_selection_cleared (p : UseCanvasEventsProps) : Handler :=
  fun _ =>
    [CallSetSelectedObjects (setSelectedObjects p) (Array [])]
    ++ optional_call (clearSelectionCallBack p).

(** Method calls on a canvas. *)
Inductive CanvasCall : Type :=
| On (c : CanvasRef) (eventName : string) (handler : Handler)
| Off (c : CanvasRef) (eventName : string).

(** l.14-26: the body of the effect. *)
Definition effect (p : UseCanvasEventsProps) : list CanvasCall :=
  match canvas p with
  | Some c =>
      [ On c "selection:created" (on_selection_created p);
        On c "selection:updated" (on_selection_updated p);
        On c "selection:cleared" (on_selection_cleared p) ]
  | None => []
  end.

(** l.28-34: the function the effect returns. *)
Definition cleanup (p : UseCanvasEventsProps) : list CanvasCall :=
  match canvas p with
  | Some c =>
      [ Off c "selection:created";
        Off c "selection:updated";
        Off c "selection:cleared" ]
  | None => []
  end.

Definition eventNameOf (call : CanvasCall) : string :=
  match call with
  | On _ n _ => n
  | Off _ n => n
  end.

Definition targetOf (call : CanvasCall) : CanvasRef :=
  match call with
  | On c _ _ => c
  | Off c _ => c
  end.

Definition isOn (call : CanvasCall) : bool :=
  match call with
  | On _ _ _ => true
  | Off _ _ => false
  end.

(** *** Fabric's Observable interface

    The canvas is Fabric.js's, an external library.  Of its behaviour the
    hook relies on three methods: [on(name, handler)] appends the handler
    to the listeners of [name], [off(name)] with one argument drops every
    listener of [name], and [fire(name, e)] calls the listeners of [name]
    in the order they were attached. *)

(** The listener table [__eventListeners] of every canvas object. *)
Definition Heap : Type := CanvasRef -> gmap string (list Handler).

Definition listeners (σ : CanvasRef -> gmap string (list Handler)) (c : CanvasRef) (name : string) : list Handler :=
  default [] (σ c !! name).

Definition exec (σ : CanvasRef -> gmap string (list Handler)) (call : CanvasCall)
  : CanvasRef -> gmap string (list Handler) :=
  match call with
  | On c name h => <[c := <[name := listeners σ c name ++ [h]]> (σ c)]> σ
  | Off c name => <[c := delete name (σ c)]> σ
  end.

Definition exec_all (calls : list CanvasCall)
    (σ : CanvasRef -> gmap string (list Handler))
  : CanvasRef -> gmap string (list Handler) :=
  foldl exec σ calls.

Definition fire (σ : CanvasRef -> gmap string (list Handler)) (c : CanvasRef) (name : string) (e : IEvent) : list Call :=
  concat (map (fun h : Handler => h e) (listeners σ c name)).

Definition selectionEvents : list string :=
  ["selection:created"; "selection:updated"; "selection:cleared"].

(** The handlers the effect attaches under an event name. *)
Definition attached (p : UseCanvasEventsProps) (name : string) : list Handler :=
  if decide (name = "selection:created") then [on_selection_created p]
  else if decide (name = "selection:updated") then [on_selection_updated p]
  else if decide (name = "selection:cleared") then [on_selection_cleared p]
  else [].

(** [Array.isArray(v)] *)
Definition isArray (v : JsValue) : bool :=
  match v with
  | Array _ => true
  | Undefined => false
  end.

(** A call passes an array to [setSelectedObjects]. *)
Definition array_argument (call : Call) : Prop :=
  match call with
  | CallSetSelectedObjects _ v => isArray v = true
  | CallClearSelection _ => True
  end.
End CanvasEvents.

Arguments JsValue : clear implicits.
Arguments IEvent : clear implicits.
Arguments Call : clear implicits.
Arguments Handler : clear implicits.
Arguments UseCanvasEventsProps : clear implicits.
Arguments CanvasCall : clear implicits.
Arguments Heap : clear implicits.
End CanvasEvents.

(** ** useAutosave *)

Module Autosave.
Section Autosave.
Context {ProjectId ProjectData Error : Type}.

(** Effects of the autosave callback on the outside world. *)
Inductive Effect : Type :=
| CallSaveProject (projectId : ProjectId) (data : ProjectData)
| ConsoleError (message : string) (error : Error).

(** How a statement, or an awaited promise, completes. *)
Inductive Completion (R : Type) : Type :=
| Normal (r : R)
| Throw (error : Error).
Arguments Normal {R} r.
Arguments Throw {R} error.

(** Computations that log effects and may throw. *)
Definition Exec (R : Type) : Type := list Effect * Completion R.

Definition exec_ret {R} (r : R) : Exec R := ([], Normal r).

Definition exec_bind {R S} (m : Exec R) (k : R -> Exec S) : Exec S :=
  match m with
  | (w, Normal r) => let '(w', c) := k r in (w ++ w', c)
  | (w, Throw e) => (w, Throw e)
  end.

(** [try { body } catch (error) { handler }] *)
Definition try_catch {R} (body : Exec R) (handler : Error -> Exec R) : Exec R :=
  match body with
  | (w, Normal r) => (w, Normal r)
  | (w, Throw e) => let '(w', c) := handler e in (w ++ w', c)
  end.

(** [saveProject] is not part of the sources: the outcome of awaiting it
    (fulfilled, or rejected with an error) is a parameter. *)
Variable saveProjectOutcome : ProjectId -> ProjectData -> Completion unit.

(** [await saveProject(projectId, data)]: a rejected promise is rethrown
    by [await]. *)
Definition await_saveProject (projectId : ProjectId) (data : ProjectData) : Exec unit :=
  ([CallSaveProject projectId data], saveProjectOutcome projectId data).

Definition console_error (message : string) (error : Error) : Exec unit :=
  ([ConsoleError message error], Normal tt).

(** l.289-295: the async function handed to [debounce]. *)
Definition autosave (projectId : ProjectId) (data : ProjectData) : Exec unit :=
  try_catch
    (exec_bind (await_saveProject projectId data) (fun _ => exec_ret tt))
    (fun error => console_error "Autosave failed:" error).

(** [debounce(f, 1000)]: the debounced function keeps at most one pending
    invocation, which [cancel] drops and the timer runs.  The delay itself
    is not modelled. *)
Definition Pending : Type := option (Exec unit).

(** l.297: [saveDebounced()] *)
Definition useAutosave_effect (projectId : ProjectId) (data : ProjectData) : Pending :=
  Some (autosave projectId data).

(** l.299: [saveDebounced.cancel()] *)
Definition useAutosave_cleanup (_ : Pending) : Pending := None.

Definition timer_fires (p : Pending) : Exec unit :=
  match p with
  | Some task => task
  | None => exec_ret tt
  end.
End Autosave.

Arguments Effect : clear implicits.
Arguments Completion : clear implicits.
Arguments Normal {Error R} r.
Arguments Throw {Error R} error.
Arguments Exec : clear implicits.
Arguments Pending : clear implicits.
End Autosave.

(** ** ShapeTool *)

Module ShapeToolComponent.
Section ShapeToolComponent.
(** [LucideIcon | IconType] component references and click handlers. *)
Context {Icon ClickHandler : Type}.

(** [cn] of "@/lib/utils" merges class values into one class string; it
    is not part of the sources and is taken as a parameter. *)
Variable cn : list (option string) -> string.

Record ShapeToolProps : Type := mkShapeToolProps {
  icon : Icon;
  iconClassnane : option string;   (* optional prop, spelled as in the source *)
  onClick : ClickHandler
}.

(** The React elements the component can describe. *)
#[local] Unset Elimination Schemes.
Inductive Element : Type :=
| Button (onClick : ClickHandler) (className : string) (children : list Element)
| IconElement (type : Icon) (className : string).
#[local] Set Elimination Schemes.

(** l.13-19 *)
Definition ShapeTool (props : ShapeToolProps) : Element :=
  Button (onClick props) "aspect-square border rounded-md p-5"
    [IconElement (icon props) (cn [Some "h-full w-full"; iconClassnane props])].
End ShapeToolComponent.

Arguments ShapeToolProps : clear implicits.
Arguments Element : clear implicits.
End ShapeToolComponent.

(** ** useCanvas *)

Module UseCanvas.
Section UseCanvas.
Context {Object CanvasRef SetSelectedFn ClearFn : Type}.

(** [handleObjectModified] and [handleSelection] are free names at
    l.203-204: whatever they are bound to is a parameter. *)
Variables handleObjectModified handleSelection
  : CanvasEvents.Handler Object SetSelectedFn ClearFn.

(** l.203-204: the listeners the effect attaches to the canvas [c] it just
    created. *)
Definition useCanvas_listeners (c : CanvasRef)
  : list (CanvasEvents.CanvasCall Object CanvasRef SetSelectedFn ClearFn) :=
  [ CanvasEvents.On c "object:modified" handleObjectModified;
    CanvasEvents.On c "selection:created" handleSelection ].
End UseCanvas.
End UseCanvas.

(** ** useAutosave over the life of a component *)

Module AutosaveLifecycle.
Section AutosaveLifecycle.
Context {ProjectId ProjectData Error : Type}.
Variable saveProjectOutcome : ProjectId -> ProjectData -> Autosave.Completion Error unit.

(** What happens to a mounted component that uses the hook: React runs the
    effect at mount and whenever [projectId] or [data] changed (l.300),
    after the cleanup of the previous run; the timer of the [k]-th
    debounced function elapses; the component unmounts. *)
Inductive LifecycleEvent : Type :=
| DepsChanged (projectId : ProjectId) (data : ProjectData)
| TimerElapsed (k : nat)
| Unmounted.

(** Every run of the effect calls [debounce] and so has a debounced
    function, with a pending slot, of its own: [timers] holds them in the
    order they were created. *)
Record HookRun : Type := mkHookRun {
  log : list (Autosave.Effect ProjectId ProjectData Error);
  timers : list (Autosave.Pending ProjectId ProjectData Error)
}.

Definition mounting : HookRun := mkHookRun [] [].

(** The cleanup React holds is the one of the latest run. *)
Definition run_cleanup (timers : list (Autosave.Pending ProjectId ProjectData Error))
  : list (Autosave.Pending ProjectId ProjectData Error) :=
  match timers with
  | [] => []
  | _ => alter Autosave.useAutosave_cleanup (Nat.pred (List.length timers)) timers
  end.

Definition lifecycle_step (s : HookRun) (ev : LifecycleEvent) : HookRun :=
  match ev with
  | DepsChanged projectId data =>
      mkHookRun (log s)
        (run_cleanup (timers s)
           ++ [Autosave.useAutosave_effect saveProjectOutcome projectId data])
  | TimerElapsed k =>
      match timers s !! k with
      | Some p =>
          mkHookRun (log s ++ fst (Autosave.timer_fires p)) (<[k := None]> (timers s))
      | None => s
      end
  | Unmounted => mkHookRun (log s) (run_cleanup (timers s))
  end.

Definition lifecycle (evs : list LifecycleEvent) (s : HookRun) : HookRun :=
  foldl lifecycle_step s evs.

Definition isDepsChanged (ev : LifecycleEvent) : bool :=
  match ev with
  | DepsChanged _ _ => true
  | _ => false
  end.

(** Only the debounced function of the latest run may have a pending
    invocation. *)
Definition only_last_pending (timers : list (Autosave.Pending ProjectId ProjectData Error))
  : Prop :=
  timers = [] \/
  exists older latest, timers = older ++ [latest] /\ Forall (fun p => p = None) older.

(** Calls of [saveProject] in a log. *)
Definition saves (l : list (Autosave.Effect ProjectId ProjectData Error))
  : list (ProjectId * ProjectData) :=
  omap (fun eff =>
          match eff with
          | Autosave.CallSaveProject projectId data => Some (projectId, data)
          | Autosave.ConsoleError _ _ => None
          end) l.
End AutosaveLifecycle.

Arguments LifecycleEvent : clear implicits.
Arguments HookRun : clear implicits.
End AutosaveLifecycle.

(** ** exportProject *)

Module ExportProject.
Section ExportProject.
(** JavaScript numbers are only tested for truthiness and passed on: the
    type, the test ([0], [-0] and [NaN] are falsy) and the literals [1] and
    [0.8] are parameters. *)
Context {Number : Type}.
Variable falsy : Number -> bool.
Variables one point8 : Number.

(** ['png' | 'svg' | 'jpg' | 'json'] *)
Inductive Format : Type := png | svg | jpg | json.

(** The call on the canvas whose result the function returns. *)
Inductive ExportCall : Type :=
| ToDataURL (format : string) (quality : Number)
| ToSVG
| StringifyToJSON.

(** [quality || d], for the optional parameter [quality] *)
Definition quality_or (quality : option Number) (d : Number) : Number :=
  match quality with
  | Some q => if falsy q then d else q
  | None => d
  end.

(** l.322-342 *)
Definition exportProject (format : Format) (quality : option Number) : ExportCall :=
  match format with
  | png => ToDataURL "png" (quality_or quality one)
  | svg => ToSVG
  | jpg => ToDataURL "jpeg" (quality_or quality point8)
  | json => StringifyToJSON
  end.
End ExportProject.

Arguments ExportCall : clear implicits.
End ExportProject.

(** ** Concrete data

    Three states were pushed and the last one undone: the array is
    [a; b; c] and the index is 1. *)

Import History.

Definition sampleOps : list (@Op string) :=
  [OpPushState "a"; OpPushState "b"; OpPushState "c"; OpUndo]%string.

Definition sample : HistoryState string := mkHistory ["a"; "b"; "c"]%string 1.

(** A hook instance on canvas 0 with both callbacks, and canvases without
    listeners. *)

Import CanvasEvents.

Definition sampleProps : UseCanvasEventsProps nat string string :=
  mkProps (Some 0%nat) "setSelectedObjects"%string (Some "clearSelectionCallBack"%string).

Definition noListeners : nat -> gmap string (list (Handler string string string)) :=
  fun _ => ∅.

Definition sampleEvent : IEvent string := mkEvent (Array ["rect"; "circle"]%string).

(** A [saveProject] that always rejects. *)

Import Autosave.

Definition rejectingSave : string -> string -> Completion string unit :=
  fun _ _ => Throw "network down"%string.

(** A plain joiner standing in for [cn], and the props of a circle tool. *)

Import ShapeToolComponent.

Definition joinClasses (classes : list (option string)) : string :=
  foldr (fun c acc =>
           match c with
           | Some cls => (cls ++ " " ++ acc)%string
           | None => acc
           end) ""%string classes.

Definition circleProps : ShapeToolProps string string :=
  mkShapeToolProps "FaCircle"%string (Some "fill-current"%string) "addCircle"%string.

(** The listeners of [useCanvas], as two recognisable calls. *)

Definition sampleObjectModified : Handler string string string :=
  fun _ => [CallClearSelection "handleObjectModified"%string].

Definition sampleSelection : Handler string string string :=
  fun _ => [CallClearSelection "handleSelection"%string].

(** The same hook after a render that passed other callbacks. *)

Definition sampleProps' : UseCanvasEventsProps nat string string :=
  mkProps (Some 0%nat) "setSelectedObjects'"%string None.

(** Qualities as rationals. *)

Definition qFalsy (q : QArith_base.Q) : bool := QArith_base.Qeq_bool q (QArith_base.Qmake 0 1).
Definition qOne : QArith_base.Q := QArith_base.Qmake 1 1.
Definition qPoint8 : QArith_base.Q := QArith_base.Qmake 8 10.

(** * Properties *)

(** ** Array helpers *)

Section JsArrayFacts.
Context {A : Type}.
Implicit Types (l : list A) (i k : Z).

Lemma length_nonneg l : 0 <= JsArray.length l.
Proof. unfold JsArray.length. lia. Qed.

Lemma length_push l x : JsArray.length (JsArray.push l x) = JsArray.length l + 1.
Proof. unfold JsArray.length, JsArray.push. rewrite length_app. simpl. lia. Qed.

Lemma get_push_last l x :
  JsArray.get (JsArray.push l x) (JsArray.length (JsArray.push l x) - 1) = Some x.
Proof.
  rewrite length_push. unfold JsArray.get, JsArray.push, JsArray.length.
  assert ((Z.of_nat (List.length l) + 1 - 1 <? 0) = false) as ->
    by (apply Z.ltb_ge; lia).
  replace (Z.to_nat (Z.of_nat (List.length l) + 1 - 1)) with (List.length l) by lia.
  apply list_lookup_middle. reflexivity.
Qed.

Lemma length_nil_iff l : JsArray.length l = 0 <-> l = [].
Proof.
  unfold JsArray.length. split.
  - destruct l; [reflexivity | simpl; lia].
  - intros ->. reflexivity.
Qed.

(** With a start of 0 and an end that is not negative, [slice] keeps the
    first [end] elements (all of them when there are fewer). *)
Lemma slice_prefix l k :
  0 <= k -> JsArray.slice l 0 k = take (Z.to_nat k) l.
Proof.
  intros Hk. unfold JsArray.slice, JsArray.relative_index.
  assert ((0 <? 0) = false) as -> by reflexivity.
  assert ((k <? 0) = false) as -> by lia.
  pose proof (length_nonneg l) as Hlen.
  rewrite (Z.min_l 0) by lia. rewrite Z.sub_0_r. simpl (Z.to_nat 0). rewrite drop_0.
  destruct (Z.le_ge_cases k (JsArray.length l)) as [Hle | Hge].
  - rewrite Z.min_l by lia. rewrite Z.max_l by lia. reflexivity.
  - rewrite Z.min_r by lia. rewrite Z.max_l by lia.
    unfold JsArray.length in *.
    rewrite !take_ge by lia. reflexivity.
Qed.

Lemma length_slice_prefix l k :
  0 <= k -> JsArray.length (JsArray.slice l 0 k) = Z.min k (JsArray.length l).
Proof.
  intros Hk. rewrite slice_prefix by assumption.
  unfold JsArray.length. rewrite length_take. lia.
Qed.

(** A negative end counts from the end of the array. *)
Lemma length_slice_le l k : JsArray.length (JsArray.slice l 0 k) <= JsArray.length l.
Proof.
  unfold JsArray.slice, JsArray.length. rewrite length_take, length_drop. lia.
Qed.

Lemma get_in_range l k :
  0 <= k < JsArray.length l -> is_Some (JsArray.get l k).
Proof.
  intros [H0 Hlt]. unfold JsArray.get.
  assert ((k <? 0) = false) as -> by lia.
  apply lookup_lt_is_Some. unfold JsArray.length in Hlt. lia.
Qed.

Lemma get_out_of_range l k :
  k < 0 \/ JsArray.length l <= k -> JsArray.get l k = None.
Proof.
  unfold JsArray.get, JsArray.length. intros [Hneg | Hge].
  - assert ((k <? 0) = true) as -> by lia. reflexivity.
  - destruct (k <? 0); [reflexivity |]. apply lookup_ge_None. lia.
Qed.
End JsArrayFacts.

(** ** useHistory *)

Section HistoryFacts.
Context {CanvasState : Type}.
Implicit Types (st : HistoryState CanvasState) (s : CanvasState).

Lemma state_eta st : mkHistory (history st) (currentIndex st) = st.
Proof. destruct st; reflexivity. Qed.

(** What each callback does on a snapshot, with the monad unfolded. *)
Lemma pushState_calls s st :
  pushState s st =
    (tt, [SetHistory (JsArray.push (JsArray.slice (history st) 0 (currentIndex st + 1)) s);
          SetCurrentIndex
            (JsArray.length
               (JsArray.push (JsArray.slice (history st) 0 (currentIndex st + 1)) s) - 1)]).
Proof. reflexivity. Qed.

Lemma undo_calls_taken st :
  0 < currentIndex st ->
  undo st = (JsArray.get (history st) (currentIndex st - 1),
             [SetCurrentIndex (currentIndex st - 1)]).
Proof.
  intros Hi. unfold undo, mbind, callback_bind, History.bind, readHistory, readCurrentIndex. simpl.
  assert ((0 <? currentIndex st) = true) as -> by lia. reflexivity.
Qed.

Lemma undo_calls_skipped st :
  currentIndex st <= 0 -> undo st = (None, []).
Proof.
  intros Hi. unfold undo, mbind, callback_bind, History.bind, readHistory, readCurrentIndex. simpl.
  assert ((0 <? currentIndex st) = false) as -> by lia. reflexivity.
Qed.

Lemma redo_calls_taken st :
  currentIndex st < JsArray.length (history st) - 1 ->
  redo st = (JsArray.get (history st) (currentIndex st + 1),
             [SetCurrentIndex (currentIndex st + 1)]).
Proof.
  intros Hi. unfold redo, mbind, callback_bind, History.bind, readHistory, readCurrentIndex. simpl.
  assert ((currentIndex st <? JsArray.length (history st) - 1) = true) as -> by lia.
  reflexivity.
Qed.

Lemma redo_calls_skipped st :
  JsArray.length (history st) - 1 <= currentIndex st -> redo st = (None, []).
Proof.
  intros Hi. unfold redo, mbind, callback_bind, History.bind, readHistory, readCurrentIndex. simpl.
  assert ((currentIndex st <? JsArray.length (history st) - 1) = false) as -> by lia.
  reflexivity.
Qed.

Lemma invoke_undo_taken st :
  0 < currentIndex st ->
  invoke undo st = (JsArray.get (history st) (currentIndex st - 1),
                    mkHistory (history st) (currentIndex st - 1)).
Proof. intros Hi. unfold invoke. rewrite undo_calls_taken by assumption. reflexivity. Qed.

Lemma invoke_redo_taken st :
  currentIndex st < JsArray.length (history st) - 1 ->
  invoke redo st = (JsArray.get (history st) (currentIndex st + 1),
                    mkHistory (history st) (currentIndex st + 1)).
Proof. intros Hi. unfold invoke. rewrite redo_calls_taken by assumption. reflexivity. Qed.

Lemma invoke_pushState s st :
  invoke (pushState s) st =
    (tt, mkHistory
           (JsArray.push (JsArray.slice (history st) 0 (currentIndex st + 1)) s)
           (JsArray.length
              (JsArray.push (JsArray.slice (history st) 0 (currentIndex st + 1)) s) - 1)).
Proof. reflexivity. Qed.

(** The previous state exists whenever the index is a position of the
    array. *)
Lemma undo_returns_some st :
  0 < currentIndex st <= JsArray.length (history st) - 1 ->
  is_Some (fst (invoke undo st)).
Proof.
  intros [H0 Hle]. rewrite invoke_undo_taken by assumption. simpl.
  apply get_in_range. lia.
Qed.
End HistoryFacts.

Section HistoryClaims.
Context {CanvasState : Type}.
Implicit Types (st : HistoryState CanvasState) (s : CanvasState).

(** C1. For every history state with array [h] and current index [i > 0],
    [undo] sets the current index to [i - 1] and returns [h[i - 1]], the
    entry just before the current one; the only setter it calls is the
    one of the index, so the history array is unchanged. *)
Theorem undo_restores_previous st :
  0 < currentIndex st ->
  undo st = (JsArray.get (history st) (currentIndex st - 1),
             [SetCurrentIndex (currentIndex st - 1)]) /\
  fst (invoke undo st) = JsArray.get (history st) (currentIndex st - 1) /\
  currentIndex (snd (invoke undo st)) = currentIndex st - 1 /\
  history (snd (invoke undo st)) = history st.
Proof.
  intros Hi. split; [apply undo_calls_taken; assumption |].
  rewrite invoke_undo_taken by assumption. simpl. auto.
Qed.

(** [undo] then [redo] on a state whose index is a position of the array. *)
Lemma undo_then_redo_in_range st :
  0 < currentIndex st ->
  currentIndex st <= JsArray.length (history st) - 1 ->
  snd (invoke redo (snd (invoke undo st))) = st /\
  fst (invoke redo (snd (invoke undo st))) = JsArray.get (history st) (currentIndex st) /\
  is_Some (JsArray.get (history st) (currentIndex st)).
Proof.
  intros Hi Hle.
  rewrite invoke_undo_taken by assumption. simpl.
  rewrite invoke_redo_taken by (simpl; lia). simpl.
  replace (currentIndex st - 1 + 1) with (currentIndex st) by lia.
  split; [apply state_eta |]. split; [reflexivity |].
  apply get_in_range. lia.
Qed.

(** [pushState] on a state whose index is at least -1. *)
Lemma pushState_from_index s st :
  -1 <= currentIndex st ->
  history (snd (invoke (pushState s) st)) =
    take (Z.to_nat (currentIndex st + 1)) (history st) ++ [s] /\
  currentIndex (snd (invoke (pushState s) st)) =
    JsArray.length (history (snd (invoke (pushState s) st))) - 1 /\
  JsArray.get (history (snd (invoke (pushState s) st)))
              (currentIndex (snd (invoke (pushState s) st))) = Some s.
Proof.
  intros Hi. rewrite invoke_pushState. simpl.
  rewrite slice_prefix by lia. unfold JsArray.push.
  split; [reflexivity |]. split; [reflexivity |].
  apply get_push_last.
Qed.

(** Whatever the index, the index after [pushState] is the last position
    of the new array. *)
Lemma pushState_index_last s st :
  currentIndex (snd (invoke (pushState s) st)) =
    JsArray.length (history (snd (invoke (pushState s) st))) - 1.
Proof. reflexivity. Qed.

(** C9. At the boundaries [undo] and [redo] do nothing: when the current
    index is at most 0, [undo] returns [undefined] and calls no setter, so
    array and index stay as they are; when the current index is at least
    the length of the array minus one, the same holds of [redo]. *)
Theorem undo_redo_noop_at_boundaries st :
  (currentIndex st <= 0 ->
     undo st = (None, []) /\ invoke undo st = (None, st)) /\
  (JsArray.length (history st) - 1 <= currentIndex st ->
     redo st = (None, []) /\ invoke redo st = (None, st)).
Proof.
  split; intros Hi.
  - unfold invoke. rewrite undo_calls_skipped by assumption. auto.
  - unfold invoke. rewrite redo_calls_skipped by assumption. auto.
Qed.

(** *** The invariant *)

Lemma initial_inv : history_inv (@initial CanvasState).
Proof.
  unfold history_inv, initial, JsArray.length. simpl. split; [lia | congruence].
Qed.

Lemma setCallsOf_cases op st :
  (exists s, op = OpPushState s /\
     setCallsOf op st =
       [SetHistory (JsArray.push (JsArray.slice (history st) 0 (currentIndex st + 1)) s);
        SetCurrentIndex
          (JsArray.length
             (JsArray.push (JsArray.slice (history st) 0 (currentIndex st + 1)) s) - 1)]) \/
  (0 < currentIndex st /\ setCallsOf op st = [SetCurrentIndex (currentIndex st - 1)]) \/
  (currentIndex st < JsArray.length (history st) - 1 /\
     setCallsOf op st = [SetCurrentIndex (currentIndex st + 1)]) \/
  setCallsOf op st = [].
Proof.
  destruct op as [s | |]; simpl.
  - left. exists s. split; reflexivity.
  - destruct (Z.lt_ge_cases 0 (currentIndex st)) as [Hlt | Hge].
    + right. left. rewrite undo_calls_taken by assumption. auto.
    + right. right. right. rewrite undo_calls_skipped by assumption. reflexivity.
  - destruct (Z.lt_ge_cases (currentIndex st) (JsArray.length (history st) - 1))
      as [Hlt | Hge].
    + right. right. left. rewrite redo_calls_taken by assumption. auto.
    + right. right. right. rewrite redo_calls_skipped by assumption. reflexivity.
Qed.

Lemma pushed_inv (l : list CanvasState) s :
  history_inv (mkHistory (JsArray.push l s) (JsArray.length (JsArray.push l s) - 1)).
Proof.
  unfold history_inv. simpl. rewrite length_push.
  pose proof (length_nonneg l). split; [lia |]. intros _. lia.
Qed.

Lemma index_inv (h : list CanvasState) i :
  0 <= i <= JsArray.length h - 1 -> history_inv (mkHistory h i).
Proof. unfold history_inv. simpl. intros Hi. split; [lia |]. intros _. lia. Qed.

Lemma step_inv st op : history_inv st -> history_inv (step st op).
Proof.
  intros [Hrange Hne]. unfold step.
  destruct (setCallsOf_cases op st) as [(s & _ & ->) | [[Hi ->] | [[Hi ->] | ->]]];
    unfold commit; simpl.
  - apply pushed_inv.
  - apply index_inv. lia.
  - apply index_inv. lia.
  - split; assumption.
Qed.

Lemma run_inv ops st : history_inv st -> history_inv (run ops st).
Proof.
  revert st. induction ops as [| op ops IH]; intros st Hst; simpl.
  - assumption.
  - apply IH, step_inv, Hst.
Qed.

(** C8. Starting from the initial state (empty array, index -1), after
    every finite sequence of [pushState], [undo] and [redo] the index lies
    between -1 and the length of the array minus one, and is at least 0
    whenever the array is not empty. *)
Theorem history_invariant (ops : list (@Op CanvasState)) :
  -1 <= currentIndex (run ops initial)
     <= JsArray.length (history (run ops initial)) - 1 /\
  (history (run ops initial) <> [] -> 0 <= currentIndex (run ops initial)).
Proof. apply (run_inv ops initial), initial_inv. Qed.
(** C2. For every state of the hook (reached from the initial state by
    any sequence of operations) whose current index [i] is positive, [undo]
    followed by [redo], each in a render of its own, gives back the state
    before the [undo]: the index is [i] again, the array is the same, and
    [redo] returns [h[i]], the entry that was current before the [undo]. *)
Theorem undo_then_redo_identity (ops : list (@Op CanvasState)) :
  let st := run ops initial in
  0 < currentIndex st ->
  snd (invoke redo (snd (invoke undo st))) = st /\
  fst (invoke redo (snd (invoke undo st))) = JsArray.get (history st) (currentIndex st) /\
  is_Some (JsArray.get (history st) (currentIndex st)).
Proof.
  intros st Hi. apply undo_then_redo_in_range; [assumption |].
  apply (run_inv ops initial), initial_inv.
Qed.

(** C3. For every state of the hook, with array [h] and current index [i],
    [pushState s] replaces the history with the elements of [h] at
    positions [0 .. i] followed by [s], whatever came after position [i]
    being dropped, and sets the current index to the length of the new
    array minus one, where [s] now is. *)
Theorem pushState_truncates_and_appends (ops : list (@Op CanvasState)) s :
  let st := run ops initial in
  history (snd (invoke (pushState s) st)) =
    take (Z.to_nat (currentIndex st + 1)) (history st) ++ [s] /\
  currentIndex (snd (invoke (pushState s) st)) =
    JsArray.length (history (snd (invoke (pushState s) st))) - 1 /\
  JsArray.get (history (snd (invoke (pushState s) st)))
              (currentIndex (snd (invoke (pushState s) st))) = Some s.
Proof.
  intros st. apply pushState_from_index.
  apply (run_inv ops initial), initial_inv.
Qed.

(** *** Operations fired from the same render *)

Lemma commit_app st (calls1 calls2 : list (SetCall CanvasState)) :
  commit st (calls1 ++ calls2) = commit (commit st calls1) calls2.
Proof. unfold commit. apply foldl_app. Qed.

Lemma step_batch_singleton st op : step_batch st [op] = step st op.
Proof. unfold step_batch, step. simpl. rewrite app_nil_r. reflexivity. Qed.

Lemma commit_batch st acc (ops : list (@Op CanvasState)) :
  commit acc (concat (map (fun op => setCallsOf op st) ops)) =
    foldl (fun acc' op => commit acc' (setCallsOf op st)) acc ops.
Proof.
  revert acc. induction ops as [| op ops IH]; intros acc; simpl.
  - reflexivity.
  - rewrite commit_app. apply IH.
Qed.

Lemma batch_acc_step st acc op :
  batch_acc_ok st acc -> batch_acc_ok st (commit acc (setCallsOf op st)).
Proof.
  intros Hacc.
  destruct (setCallsOf_cases op st) as [(s & _ & ->) | [[Hi ->] | [[Hi ->] | ->]]];
    unfold commit; simpl.
  - right. exists s. simpl. auto.
  - destruct Hacc as [[Hh _] | (s & Hh & _)].
    + left. simpl. split; [assumption |]. right. left. auto.
    + right. exists s. simpl. split; [assumption |]. right. left. auto.
  - destruct Hacc as [[Hh _] | (s & Hh & _)].
    + left. simpl. split; [assumption |]. right. right. auto.
    + right. exists s. simpl. split; [assumption |]. right. right. auto.
  - assumption.
Qed.

Lemma batch_acc_inv st acc :
  history_inv st -> batch_acc_ok st acc -> history_inv acc.
Proof.
  intros [Hrange Hne] [[Hh Hi] | (s & Hh & Hi)]; unfold history_inv, moved_index in *.
  - rewrite Hh. split.
    + destruct Hi as [-> | [[? ->] | [? ->]]]; lia.
    + intros Hnil. specialize (Hne Hnil).
      destruct Hi as [-> | [[? ->] | [? ->]]]; lia.
  - assert (JsArray.length (history acc) = currentIndex st + 2) as Hlen.
    { rewrite Hh, length_push, length_slice_prefix by lia. lia. }
    rewrite Hlen in *. split.
    + destruct Hi as [-> | [[? ->] | [? ->]]]; lia.
    + intros _. destruct Hi as [-> | [[? ->] | [? ->]]]; lia.
Qed.

Lemma batch_fold_ok st acc (ops : list (@Op CanvasState)) :
  batch_acc_ok st acc ->
  batch_acc_ok st (foldl (fun acc' op => commit acc' (setCallsOf op st)) acc ops).
Proof.
  revert acc. induction ops as [| op ops IH]; intros acc Hacc; simpl.
  - assumption.
  - apply IH, batch_acc_step, Hacc.
Qed.

Lemma step_batch_inv st (ops : list (@Op CanvasState)) :
  history_inv st -> history_inv (step_batch st ops).
Proof.
  intros Hst. apply (batch_acc_inv st); [assumption |].
  unfold step_batch. rewrite commit_batch.
  apply batch_fold_ok. left. auto.
Qed.

(** X20. The invariant of the index also survives when several operations
    are fired from one render and all see the same snapshot: after any
    sequence of such batches from the initial state the index is between
    -1 and the length of the array minus one, and at least 0 when the array
    is not empty. *)
Lemma run_batches_inv (batches : list (list (@Op CanvasState))) :
  history_inv (run_batches batches initial).
Proof.
  unfold run_batches. generalize (@initial_inv). generalize (@initial CanvasState) as st.
  induction batches as [| ops batches IH]; intros st Hst; simpl.
  - assumption.
  - apply IH, step_batch_inv, Hst.
Qed.
End HistoryClaims.

(** *** The claims on a concrete history *)

Lemma undo_restores_previous_witness :
  0 < currentIndex sample /\
  (undo sample = (Some "a"%string, [SetCurrentIndex 0]) /\
   fst (invoke undo sample) = Some "a"%string /\
   currentIndex (snd (invoke undo sample)) = 0 /\
   history (snd (invoke undo sample)) = ["a"; "b"; "c"]%string).
Proof.
  split; [vm_compute; reflexivity |].
  apply (undo_restores_previous sample). vm_compute; reflexivity.
Defined.

Lemma undo_then_redo_identity_witness :
  run sampleOps initial = sample /\
  0 < currentIndex sample /\
  (snd (invoke redo (snd (invoke undo sample))) = sample /\
   fst (invoke redo (snd (invoke undo sample))) = Some "b"%string /\
   is_Some (JsArray.get (history sample) (currentIndex sample))).
Proof.
  split; [reflexivity |].
  split; [vm_compute; reflexivity |].
  apply (undo_then_redo_identity sampleOps).
  vm_compute; reflexivity.
Defined.

Lemma undo_redo_noop_at_boundaries_witness :
  (undo (mkHistory ["a"%string] 0) = (None, []) /\
   invoke undo (mkHistory ["a"%string] 0) = (None, mkHistory ["a"%string] 0)) /\
  (redo (mkHistory ["a"%string] 0) = (None, []) /\
   invoke redo (mkHistory ["a"%string] 0) = (None, mkHistory ["a"%string] 0)).
Proof.
  split.
  - apply (undo_redo_noop_at_boundaries (mkHistory ["a"%string] 0)).
    vm_compute; discriminate.
  - apply (undo_redo_noop_at_boundaries (mkHistory ["a"%string] 0)).
    vm_compute; discriminate.
Defined.

Lemma history_invariant_witness :
  0 <= currentIndex
         (run [OpPushState "a"%string; OpPushState "b"%string; OpUndo; OpUndo; OpRedo]
              initial).
Proof.
  apply (history_invariant
           [OpPushState "a"%string; OpPushState "b"%string; OpUndo; OpUndo; OpRedo]).
  vm_compute; discriminate.
Defined.

(** The pushed entry replaces the redo branch: from [a; b; c] at index 1,
    pushing [d] leaves [a; b; d] at index 2. *)
Example pushState_sample :
  invoke (pushState "d"%string) sample = (tt, mkHistory ["a"; "b"; "d"]%string 2).
Proof. reflexivity. Qed.

Example undo_sample : invoke undo sample = (Some "a"%string, mkHistory ["a"; "b"; "c"]%string 0).
Proof. reflexivity. Qed.

Example redo_sample : invoke redo sample = (Some "c"%string, mkHistory ["a"; "b"; "c"]%string 2).
Proof. reflexivity. Qed.

Example run_sampleOps : run sampleOps initial = sample.
Proof. reflexivity. Qed.

(** A push and an undo fired from the same render both see index 1: the
    array becomes [a; b; d] and the index 0. *)
Example batch_push_undo :
  step_batch sample [OpPushState "d"%string; OpUndo] = mkHistory ["a"; "b"; "d"]%string 0.
Proof. reflexivity. Qed.

Example undo_initial : invoke undo (@initial string) = (None, initial).
Proof. reflexivity. Qed.

(** ** useCanvasEvents *)

Section CanvasEventsFacts.
Context {Object CanvasRef SetSelectedFn ClearFn : Type}.
Context `{EqDecision CanvasRef}.

Abbreviation Props := (UseCanvasEventsProps CanvasRef SetSelectedFn ClearFn).
Abbreviation Hdl := (Handler Object SetSelectedFn ClearFn).
Abbreviation CCall := (CanvasCall Object CanvasRef SetSelectedFn ClearFn).
Implicit Types (p : Props) (c : CanvasRef) (n : string)
  (σ : CanvasRef -> gmap string (list Hdl)) (e : IEvent Object).

(** [||] keeps an array, empty or not, and replaces [undefined]. *)
Lemma js_or_array (objs : list Object) (v : JsValue Object) :
  js_or (Array objs) v = Array objs.
Proof. reflexivity. Qed.

Lemma js_or_undefined (v : JsValue Object) : js_or Undefined v = v.
Proof. reflexivity. Qed.

Lemma listeners_on σ c n (h : Hdl) c' n' :
  listeners (exec σ (On c n h)) c' n' =
    if decide (c = c' /\ n = n') then listeners σ c n ++ [h] else listeners σ c' n'.
Proof.
  unfold listeners at 1. simpl.
  destruct (decide (c = c')) as [<- | Hc].
  - rewrite fn_lookup_insert.
    destruct (decide (n = n')) as [<- | Hn].
    + rewrite lookup_insert_eq. simpl. rewrite decide_True by auto. reflexivity.
    + rewrite lookup_insert_ne by assumption.
      rewrite decide_False by (intros [_ ?]; contradiction). reflexivity.
  - rewrite fn_lookup_insert_ne by assumption.
    rewrite decide_False by (intros [? _]; contradiction). reflexivity.
Qed.

Lemma listeners_off σ c n c' n' :
  listeners (exec (Object := Object) (SetSelectedFn := SetSelectedFn)
               (ClearFn := ClearFn) σ (Off c n)) c' n' =
    if decide (c = c' /\ n = n') then [] else listeners σ c' n'.
Proof.
  unfold listeners at 1. simpl.
  destruct (decide (c = c')) as [<- | Hc].
  - rewrite fn_lookup_insert.
    destruct (decide (n = n')) as [<- | Hn].
    + rewrite lookup_delete_eq. simpl. rewrite decide_True by auto. reflexivity.
    + rewrite lookup_delete_ne by assumption.
      rewrite decide_False by (intros [_ ?]; contradiction). reflexivity.
  - rewrite fn_lookup_insert_ne by assumption.
    rewrite decide_False by (intros [? _]; contradiction). reflexivity.
Qed.

Lemma exec_all_cons (call : CCall) (calls : list CCall) σ :
  exec_all (call :: calls) σ = exec_all calls (exec σ call).
Proof. reflexivity. Qed.

Lemma exec_all_nil σ : exec_all ([] : list CCall) σ = σ.
Proof. reflexivity. Qed.

Lemma elem_of_selectionEvents n :
  n ∈ selectionEvents <->
  n = "selection:created" \/ n = "selection:updated" \/ n = "selection:cleared".
Proof.
  unfold selectionEvents. rewrite !elem_of_cons, elem_of_nil. tauto.
Qed.

Lemma attached_length p n :
  List.length (attached (Object := Object) p n) =
    if decide (n ∈ selectionEvents) then 1%nat else 0%nat.
Proof.
  unfold attached.
  destruct (decide (n ∈ selectionEvents)) as [Hin | Hout].
  - apply elem_of_selectionEvents in Hin.
    destruct Hin as [-> | [-> | ->]]; reflexivity.
  - rewrite elem_of_selectionEvents in Hout.
    rewrite !decide_False by tauto. reflexivity.
Qed.

(** After the effect ran, the listeners of a canvas and event name are
    the ones there were, followed by this hook's when the canvas is the
    hook's. *)
Lemma listeners_effect p σ c' n :
  listeners (exec_all (effect p) σ) c' n =
    listeners σ c' n ++ (if decide (canvas p = Some c') then attached p n else []).
Proof.
  unfold effect. destruct (canvas p) as [c |].
  - rewrite !exec_all_cons, exec_all_nil, !listeners_on. unfold attached.
    repeat case_decide; destruct_and?; simplify_eq;
      rewrite ?app_nil_r; try reflexivity; exfalso; naive_solver.
  - rewrite decide_False by discriminate. rewrite app_nil_r. reflexivity.
Qed.

Lemma listeners_cleanup p σ c' n :
  listeners (exec_all (cleanup (Object := Object) p) σ) c' n =
    if decide (canvas p = Some c' /\ n ∈ selectionEvents) then [] else listeners σ c' n.
Proof.
  unfold cleanup. destruct (canvas p) as [c |].
  - rewrite !exec_all_cons, exec_all_nil, !listeners_off.
    destruct (decide (Some c = Some c' /\ n ∈ selectionEvents)) as [[Hc Hin] | Hno].
    + injection Hc as ->. apply elem_of_selectionEvents in Hin.
      destruct Hin as [-> | [-> | ->]];
        repeat case_decide; first [reflexivity | exfalso; intuition congruence].
    + repeat case_decide; try reflexivity; exfalso; apply Hno;
        destruct_and?; subst; (split; [reflexivity |]);
        apply elem_of_selectionEvents; auto.
  - rewrite decide_False by (intros [? _]; discriminate). reflexivity.
Qed.

Lemma fire_effect p σ c n e :
  canvas p = Some c ->
  fire (exec_all (effect p) σ) c n e =
    fire σ c n e ++ concat (map (fun h : Hdl => h e) (attached p n)).
Proof.
  intros Hc. unfold fire. rewrite listeners_effect.
  rewrite decide_True by assumption.
  rewrite map_app, concat_app. reflexivity.
Qed.
End CanvasEventsFacts.

Section CanvasEventsClaims.
Context {Object CanvasRef SetSelectedFn ClearFn : Type}.
Context `{EqDecision CanvasRef}.

Abbreviation Props := (UseCanvasEventsProps CanvasRef SetSelectedFn ClearFn).
Abbreviation Hdl := (Handler Object SetSelectedFn ClearFn).
Implicit Types (p : Props) (c : CanvasRef) (n : string)
  (σ : CanvasRef -> gmap string (list Hdl)) (e : IEvent Object).

(** C4. Once the effect ran on the hook's canvas, firing [selection:created]
    or [selection:updated] with an event calls [setSelectedObjects] with the
    event's selected objects (the empty array when the event has none), and
    firing [selection:cleared] calls [setSelectedObjects] with the empty
    array and then [clearSelectionCallBack] when the prop was provided; the
    listeners that were attached before run first, and the hook adds no
    other call. *)
Theorem selection_bridge p c σ e :
  canvas p = Some c ->
  fire (exec_all (effect p) σ) c "selection:created" e =
    fire σ c "selection:created" e ++
    [CallSetSelectedObjects (setSelectedObjects p)
       (match selected e with Array objs => Array objs | Undefined => Array [] end)] /\
  fire (exec_all (effect p) σ) c "selection:updated" e =
    fire σ c "selection:updated" e ++
    [CallSetSelectedObjects (setSelectedObjects p)
       (match selected e with Array objs => Array objs | Undefined => Array [] end)] /\
  fire (exec_all (effect p) σ) c "selection:cleared" e =
    fire σ c "selection:cleared" e ++
    CallSetSelectedObjects (setSelectedObjects p) (Array []) ::
    match clearSelectionCallBack p with
    | Some g => [CallClearSelection g]
    | None => []
    end.
Proof.
  intros Hc. rewrite !fire_effect by assumption. unfold attached.
  repeat split.
  - rewrite decide_True by reflexivity. simpl.
    unfold on_selection_created, js_or. destruct (selected e); reflexivity.
  - rewrite decide_False by discriminate. rewrite decide_True by reflexivity. simpl.
    unfold on_selection_updated, js_or. destruct (selected e); reflexivity.
  - rewrite !decide_False by discriminate. rewrite decide_True by reflexivity. simpl.
    unfold on_selection_cleared, optional_call.
    destruct (clearSelectionCallBack p); reflexivity.
Qed.

(** C5. With a canvas, the effect calls [on] three times, on that canvas,
    for [selection:created], [selection:updated] and [selection:cleared],
    and its cleanup calls [off] three times, on that canvas, for the same
    three names; with [null] neither calls anything.  On the listener
    tables: the effect adds one listener under each of the three names of
    its canvas and none anywhere else, and the cleanup empties those three
    and leaves every other table entry as it was. *)
Theorem effect_attaches_cleanup_detaches p :
  match canvas p with
  | Some c =>
      map eventNameOf (effect (Object := Object) p) = selectionEvents /\
      Forall (fun call => isOn call = true /\ targetOf call = c)
        (effect (Object := Object) p) /\
      map eventNameOf (cleanup (Object := Object) p) = selectionEvents /\
      Forall (fun call => isOn call = false /\ targetOf call = c)
        (cleanup (Object := Object) p)
  | None => effect (Object := Object) p = [] /\ cleanup (Object := Object) p = []
  end /\
  (forall σ c' n,
     List.length (listeners (exec_all (effect p) σ) c' n) =
       (List.length (listeners σ c' n) +
        if decide (canvas p = Some c' /\ n ∈ selectionEvents) then 1 else 0)%nat) /\
  (forall σ c' n,
     listeners (exec_all (cleanup (Object := Object) p) σ) c' n =
       if decide (canvas p = Some c' /\ n ∈ selectionEvents) then [] else listeners σ c' n).
Proof.
  split; [| split].
  - unfold effect, cleanup. destruct (canvas p) as [c |].
    + repeat split; repeat constructor.
    + split; reflexivity.
  - intros σ c' n. rewrite listeners_effect, length_app.
    destruct (decide (canvas p = Some c')) as [Hc | Hc].
    + rewrite attached_length.
      destruct (decide (n ∈ selectionEvents)) as [Hn | Hn].
      * rewrite decide_True by auto. reflexivity.
      * rewrite decide_False by tauto. reflexivity.
    + rewrite decide_False by tauto. reflexivity.
  - intros σ c' n. apply listeners_cleanup.
Qed.

(** C10. Every call of [setSelectedObjects] made by a handler the effect
    attaches passes an array, and on a [selection:created] or
    [selection:updated] event whose [selected] field is [undefined] the
    handler passes the empty array. *)
Theorem setSelectedObjects_gets_array p :
  Forall (fun call =>
            match call with
            | On _ _ h => forall e, Forall array_argument (h e)
            | Off _ _ => True
            end) (effect (Object := Object) p) /\
  on_selection_created p (mkEvent (Undefined (Object := Object))) =
    [CallSetSelectedObjects (setSelectedObjects p) (Array [])] /\
  on_selection_updated p (mkEvent (Undefined (Object := Object))) =
    [CallSetSelectedObjects (setSelectedObjects p) (Array [])].
Proof.
  split; [| split; reflexivity].
  unfold effect. destruct (canvas p) as [c |]; [| constructor].
  repeat apply Forall_cons_2; try apply Forall_nil_2; intros e.
  - unfold on_selection_created, js_or.
    destruct (selected e); repeat constructor.
  - unfold on_selection_updated, js_or.
    destruct (selected e); repeat constructor.
  - unfold on_selection_cleared, optional_call.
    destruct (clearSelectionCallBack p); repeat constructor.
Qed.
End CanvasEventsClaims.

Lemma selection_bridge_witness :
  canvas sampleProps = Some 0%nat /\
  fire (exec_all (effect sampleProps) noListeners) 0%nat "selection:created" sampleEvent =
    [CallSetSelectedObjects "setSelectedObjects"%string (Array ["rect"; "circle"]%string)] /\
  fire (exec_all (effect sampleProps) noListeners) 0%nat "selection:updated" sampleEvent =
    [CallSetSelectedObjects "setSelectedObjects"%string (Array ["rect"; "circle"]%string)] /\
  fire (exec_all (effect sampleProps) noListeners) 0%nat "selection:cleared" sampleEvent =
    [CallSetSelectedObjects "setSelectedObjects"%string (Array []);
     CallClearSelection "clearSelectionCallBack"%string].
Proof.
  split; [reflexivity |].
  apply (selection_bridge sampleProps 0%nat noListeners sampleEvent). reflexivity.
Defined.

(** After the cleanup the events reach no handler of the hook. *)
Example cleanup_silences :
  fire (exec_all (cleanup sampleProps) (exec_all (effect sampleProps) noListeners))
       0%nat "selection:created" sampleEvent = [].
Proof. vm_compute. reflexivity. Qed.

(** ** useAutosave *)

Section AutosaveClaims.
Context {ProjectId ProjectData Error : Type}.
Variable saveProjectOutcome : ProjectId -> ProjectData -> Completion Error unit.
Implicit Types (projectId : ProjectId) (data : ProjectData) (error : Error).

Lemma try_catch_normal {R} w (r : R) (handler : Error -> Exec ProjectId ProjectData Error R) :
  try_catch (w, Normal r) handler = (w, Normal r).
Proof. reflexivity. Qed.

Lemma try_catch_throw {R} w error (handler : Error -> Exec ProjectId ProjectData Error R) :
  try_catch (w, Throw error) handler = (w ++ fst (handler error), snd (handler error)).
Proof. unfold try_catch. destruct (handler error); reflexivity. Qed.

Lemma autosave_success projectId data :
  saveProjectOutcome projectId data = Normal tt ->
  autosave saveProjectOutcome projectId data = ([CallSaveProject projectId data], Normal tt).
Proof.
  intros Hok. unfold autosave, await_saveProject, exec_bind. rewrite Hok. reflexivity.
Qed.

(** Whatever [saveProject] does, the callback completes normally. *)
Lemma autosave_never_throws projectId data :
  snd (autosave saveProjectOutcome projectId data) = Normal tt.
Proof.
  unfold autosave, await_saveProject, exec_bind.
  destruct (saveProjectOutcome projectId data) as [[] | error]; reflexivity.
Qed.

(** C6. For every project id and data, when [saveProject] fails with an
    error, the autosave callback (run directly, or by the debounce timer
    after the effect scheduled it) completes normally, and all it did is
    the one call of [saveProject] followed by one [console.error] of
    "Autosave failed:" with that error. *)
Theorem autosave_failure_logged projectId data error :
  saveProjectOutcome projectId data = Throw error ->
  autosave saveProjectOutcome projectId data =
    ([CallSaveProject projectId data; ConsoleError "Autosave failed:" error], Normal tt) /\
  timer_fires (useAutosave_effect saveProjectOutcome projectId data) =
    ([CallSaveProject projectId data; ConsoleError "Autosave failed:" error], Normal tt).
Proof.
  intros Hfail.
  assert (autosave saveProjectOutcome projectId data =
            ([CallSaveProject projectId data; ConsoleError "Autosave failed:" error],
             Normal tt)) as Hrun.
  { unfold autosave, await_saveProject, exec_bind. rewrite Hfail.
    rewrite try_catch_throw. reflexivity. }
  split; [exact Hrun |]. unfold useAutosave_effect, timer_fires. exact Hrun.
Qed.
End AutosaveClaims.

Lemma autosave_failure_logged_witness :
  rejectingSave "project-1"%string "{}"%string = Throw "network down"%string /\
  autosave rejectingSave "project-1"%string "{}"%string =
    ([CallSaveProject "project-1"%string "{}"%string;
      ConsoleError "Autosave failed:" "network down"%string], Normal tt) /\
  timer_fires (useAutosave_effect rejectingSave "project-1"%string "{}"%string) =
    ([CallSaveProject "project-1"%string "{}"%string;
      ConsoleError "Autosave failed:" "network down"%string], Normal tt).
Proof.
  split; [reflexivity |].
  apply (autosave_failure_logged rejectingSave "project-1"%string "{}"%string
           "network down"%string).
  reflexivity.
Defined.

(** A cancelled invocation does nothing when the timer would have fired. *)
Example cancelled_autosave :
  timer_fires (useAutosave_cleanup (useAutosave_effect rejectingSave "p"%string "d"%string))
  = ([], Normal tt).
Proof. reflexivity. Qed.

(** ** ShapeTool *)

(** The element the component describes for the circle tool. *)
Example ShapeTool_circle :
  ShapeTool joinClasses circleProps =
    Button "addCircle"%string "aspect-square border rounded-md p-5"%string
      [IconElement "FaCircle"%string "h-full w-full fill-current "%string].
Proof. reflexivity. Qed.

(** * Further properties *)

(** ** useHistory *)

Section HistoryFurther.
Context {CanvasState : Type}.
Implicit Types (st : HistoryState CanvasState) (s : CanvasState)
  (ops : list (@Op CanvasState)).

Lemma reachable_inv ops : history_inv (run ops initial).
Proof. apply (run_inv ops initial), initial_inv. Qed.

Lemma step_undo st :
  step st OpUndo =
    mkHistory (history st) (if 0 <? currentIndex st then currentIndex st - 1 else currentIndex st).
Proof.
  unfold step. simpl. destruct (Z.ltb_spec 0 (currentIndex st)) as [Hlt | Hge].
  - rewrite undo_calls_taken by assumption. reflexivity.
  - rewrite undo_calls_skipped by assumption. simpl. symmetry. apply state_eta.
Qed.

Lemma step_redo st :
  step st OpRedo =
    mkHistory (history st)
      (if currentIndex st <? JsArray.length (history st) - 1
       then currentIndex st + 1 else currentIndex st).
Proof.
  unfold step. simpl.
  destruct (Z.ltb_spec (currentIndex st) (JsArray.length (history st) - 1)) as [Hlt | Hge].
  - rewrite redo_calls_taken by assumption. reflexivity.
  - rewrite redo_calls_skipped by assumption. simpl. symmetry. apply state_eta.
Qed.

Lemma step_pushState st s :
  step st (OpPushState s) = snd (invoke (pushState s) st).
Proof. reflexivity. Qed.

Lemma run_cons op ops st : run (op :: ops) st = run ops (step st op).
Proof. reflexivity. Qed.

(** X1. In every state of the hook that has something to redo, [redo]
    followed by [undo], each in a render of its own, gives back the state
    before the [redo], and that [undo] returns the entry that was current. *)
Theorem redo_then_undo_identity ops :
  let st := run ops initial in
  currentIndex st < JsArray.length (history st) - 1 ->
  snd (invoke undo (snd (invoke redo st))) = st /\
  fst (invoke undo (snd (invoke redo st))) = JsArray.get (history st) (currentIndex st) /\
  is_Some (JsArray.get (history st) (currentIndex st)).
Proof.
  intros st Hi. destruct (reachable_inv ops) as [Hrange Hne]. fold st in Hrange, Hne.
  assert (0 <= currentIndex st) as H0.
  { apply Hne. intros Hnil. apply length_nil_iff in Hnil. lia. }
  rewrite invoke_redo_taken by assumption. simpl.
  rewrite invoke_undo_taken by (simpl; lia). simpl.
  replace (currentIndex st + 1 - 1) with (currentIndex st) by lia.
  split; [apply state_eta |]. split; [reflexivity |].
  apply get_in_range. lia.
Qed.

(** X2. In every state of the hook with a current entry, [undo] right after
    [pushState s] returns that entry and puts the index back where it was;
    the pushed [s] stays in the array, one position further. *)
Theorem pushState_then_undo ops s :
  let st := run ops initial in
  0 <= currentIndex st ->
  invoke undo (snd (invoke (pushState s) st)) =
    (JsArray.get (history st) (currentIndex st),
     mkHistory (take (Z.to_nat (currentIndex st + 1)) (history st) ++ [s]) (currentIndex st)) /\
  is_Some (JsArray.get (history st) (currentIndex st)).
Proof.
  intros st H0. destruct (reachable_inv ops) as [Hrange _]. fold st in Hrange.
  assert (is_Some (JsArray.get (history st) (currentIndex st))) as Hsome
    by (apply get_in_range; lia).
  split; [| exact Hsome].
  rewrite invoke_pushState.
  rewrite slice_prefix by lia.
  set (h' := JsArray.push (take (Z.to_nat (currentIndex st + 1)) (history st)) s).
  assert (JsArray.length h' = currentIndex st + 2) as Hlen.
  { subst h'. rewrite length_push. unfold JsArray.length in *.
    rewrite length_take. lia. }
  simpl. rewrite invoke_undo_taken by (simpl; lia). simpl. rewrite Hlen.
  replace (currentIndex st + 2 - 1 - 1) with (currentIndex st) by lia.
  f_equal. subst h'. unfold JsArray.get, JsArray.push.
  assert ((currentIndex st <? 0) = false) as -> by lia.
  rewrite lookup_app_l
    by (rewrite length_take; unfold JsArray.length in Hrange; lia).
  apply lookup_take_lt. lia.
Qed.

(** X3. After [pushState] there is nothing to redo, in whatever state it
    was called: [redo] returns [undefined] and calls no setter. *)
Theorem pushState_clears_redo st s :
  redo (snd (invoke (pushState s) st)) = (None, []) /\
  invoke redo (snd (invoke (pushState s) st)) = (None, snd (invoke (pushState s) st)).
Proof.
  assert (redo (snd (invoke (pushState s) st)) = (None, [])) as Hredo.
  { apply redo_calls_skipped. rewrite invoke_pushState. simpl. lia. }
  split; [exact Hredo |]. unfold invoke at 1. rewrite Hredo. reflexivity.
Qed.

(** X4. [undo] and [redo] never touch the array: a sequence of operations
    without [pushState] leaves it as it was. *)
Theorem undo_redo_keep_history ops st :
  Forall (fun op => isPushState op = false) ops ->
  history (run ops st) = history st.
Proof.
  intros Hops. revert st. induction Hops as [| op ops Hop _ IH]; intros st.
  - reflexivity.
  - rewrite run_cons, IH. destruct op as [s | |]; [discriminate | |].
    + rewrite step_undo. reflexivity.
    + rewrite step_redo. reflexivity.
Qed.

Lemma run_pushes_at_tip (l : list CanvasState) st :
  currentIndex st = JsArray.length (history st) - 1 ->
  run (map OpPushState l) st =
    mkHistory (history st ++ l) (JsArray.length (history st ++ l) - 1).
Proof.
  revert st. induction l as [| a l IH]; intros st Htip.
  - simpl. rewrite app_nil_r, <- Htip. symmetry. apply state_eta.
  - simpl map. rewrite run_cons, step_pushState, invoke_pushState. simpl snd.
    rewrite IH by reflexivity. simpl history.
    rewrite slice_prefix by (pose proof (length_nonneg (history st)); lia).
    rewrite take_ge by (unfold JsArray.length in Htip; lia).
    unfold JsArray.push. rewrite <- app_assoc. reflexivity.
Qed.

(** X5. In every state of the hook, with array [h] and index [i], pushing
    the states [s :: l] one after the other leaves the first [i + 1] entries
    of [h] followed by [s :: l], with the index on the last of them. *)
Theorem run_pushes ops s (l : list CanvasState) :
  let st := run ops initial in
  run (map OpPushState (s :: l)) st =
    mkHistory (take (Z.to_nat (currentIndex st + 1)) (history st) ++ s :: l)
      (JsArray.length (take (Z.to_nat (currentIndex st + 1)) (history st) ++ s :: l) - 1).
Proof.
  intros st. destruct (reachable_inv ops) as [Hrange _]. fold st in Hrange.
  simpl map. rewrite run_cons, step_pushState, invoke_pushState. simpl snd.
  rewrite run_pushes_at_tip by reflexivity. simpl history.
  rewrite slice_prefix by lia. unfold JsArray.push.
  rewrite <- app_assoc. reflexivity.
Qed.

(** X6. [n] undos in a row move the index down by [n] but not below 0 (an
    index that is 0 or -1 stays), and leave the array alone. *)
Theorem undo_repeated (n : nat) st :
  run (replicate n OpUndo) st =
    mkHistory (history st)
      (Z.min (currentIndex st) (Z.max 0 (currentIndex st - Z.of_nat n))).
Proof.
  revert st. induction n as [| n IH]; intros st.
  - simpl. rewrite <- (state_eta st) at 1. f_equal. lia.
  - simpl replicate. rewrite run_cons, IH, step_undo. simpl.
    f_equal. destruct (Z.ltb_spec 0 (currentIndex st)); lia.
Qed.

(** X7. [n] redos in a row move the index up by [n] but not beyond the
    last position (an index already there or beyond stays), and leave the
    array alone. *)
Theorem redo_repeated (n : nat) st :
  run (replicate n OpRedo) st =
    mkHistory (history st)
      (Z.max (currentIndex st)
         (Z.min (JsArray.length (history st) - 1) (currentIndex st + Z.of_nat n))).
Proof.
  revert st. induction n as [| n IH]; intros st.
  - simpl. rewrite <- (state_eta st) at 1. f_equal. lia.
  - simpl replicate. rewrite run_cons, IH, step_redo. simpl.
    f_equal.
    destruct (Z.ltb_spec (currentIndex st) (JsArray.length (history st) - 1)); lia.
Qed.

(** X8. In every state of the hook, [undo] returns [undefined] exactly when
    the index is 0 or -1, and [redo] exactly when the index is the last
    position: when they move the index they return an entry. *)
Theorem undefined_iff_boundary ops :
  let st := run ops initial in
  (fst (invoke undo st) = None <-> currentIndex st <= 0) /\
  (fst (invoke redo st) = None <-> JsArray.length (history st) - 1 <= currentIndex st).
Proof.
  intros st. destruct (reachable_inv ops) as [Hrange Hne]. fold st in Hrange, Hne.
  split; split.
  - intros Hnone. destruct (Z.le_gt_cases (currentIndex st) 0) as [Hle | Hgt]; [assumption |].
    exfalso. rewrite invoke_undo_taken in Hnone by lia. simpl in Hnone.
    destruct (get_in_range (history st) (currentIndex st - 1)) as [x Hx]; [lia |].
    congruence.
  - intros Hle. unfold invoke. rewrite undo_calls_skipped by assumption. reflexivity.
  - intros Hnone.
    destruct (Z.le_gt_cases (JsArray.length (history st) - 1) (currentIndex st))
      as [Hle | Hgt]; [assumption |].
    exfalso. rewrite invoke_redo_taken in Hnone by lia. simpl in Hnone.
    destruct (get_in_range (history st) (currentIndex st + 1)) as [x Hx]; [lia |].
    congruence.
  - intros Hle. unfold invoke. rewrite redo_calls_skipped by assumption. reflexivity.
Qed.

(** *** Operations fired from the same render *)

(** X9. When several operations are fired from one render and the last is
    [pushState s], the outcome is that of [pushState s] alone: the undos,
    redos and pushes before it in that render are lost. *)
Theorem batch_last_push_wins ops st s :
  step_batch st (ops ++ [OpPushState s]) = step st (OpPushState s).
Proof.
  unfold step_batch, step. rewrite map_app, concat_app, commit_app. simpl.
  reflexivity.
Qed.

Lemma commit_setCalls_idem op st acc :
  commit (commit acc (setCallsOf op st)) (setCallsOf op st) = commit acc (setCallsOf op st).
Proof.
  destruct (setCallsOf_cases op st) as [(s & _ & ->) | [[_ ->] | [[_ ->] | ->]]];
    reflexivity.
Qed.

Lemma batch_repeat_fold (n : nat) op st acc :
  foldl (fun acc' op' => commit acc' (setCallsOf op' st))
    (commit acc (setCallsOf op st)) (replicate n op) =
  commit acc (setCallsOf op st).
Proof.
  induction n as [| n IH]; simpl.
  - reflexivity.
  - rewrite commit_setCalls_idem. exact IH.
Qed.

(** X10. An operation fired several times from one render acts once: every
    call sees the same snapshot, so two undos in one handler undo one
    step. *)
Theorem batch_repeat_acts_once (n : nat) op st :
  step_batch st (replicate (S n) op) = step st op.
Proof.
  unfold step_batch, step. rewrite commit_batch. simpl.
  apply batch_repeat_fold.
Qed.
End HistoryFurther.

Lemma redo_then_undo_identity_witness :
  currentIndex (run sampleOps initial) < JsArray.length (history (run sampleOps initial)) - 1 /\
  (snd (invoke undo (snd (invoke redo (run sampleOps initial)))) = run sampleOps initial /\
   fst (invoke undo (snd (invoke redo (run sampleOps initial)))) =
     JsArray.get (history (run sampleOps initial)) (currentIndex (run sampleOps initial)) /\
   is_Some (JsArray.get (history (run sampleOps initial))
              (currentIndex (run sampleOps initial)))).
Proof.
  split; [vm_compute; reflexivity |].
  apply (redo_then_undo_identity sampleOps). vm_compute; reflexivity.
Defined.

Lemma pushState_then_undo_witness :
  0 <= currentIndex (run sampleOps initial) /\
  invoke undo (snd (invoke (pushState "d"%string) (run sampleOps initial))) =
    (Some "b"%string, mkHistory ["a"; "b"; "d"]%string 1).
Proof.
  split; [vm_compute; discriminate |].
  apply (pushState_then_undo sampleOps "d"%string). vm_compute; discriminate.
Defined.

Lemma undo_redo_keep_history_witness :
  history (run [OpUndo; OpRedo; OpRedo; OpUndo] sample) = ["a"; "b"; "c"]%string.
Proof.
  apply (undo_redo_keep_history [OpUndo; OpRedo; OpRedo; OpUndo] sample).
  repeat constructor.
Defined.

(** ** useCanvasEvents *)

Section CanvasEventsFurther.
Context {Object CanvasRef SetSelectedFn ClearFn : Type}.
Context `{EqDecision CanvasRef}.

Abbreviation Props := (UseCanvasEventsProps CanvasRef SetSelectedFn ClearFn).
Abbreviation Hdl := (Handler Object SetSelectedFn ClearFn).
Implicit Types (p : Props) (c : CanvasRef) (n : string)
  (σ : CanvasRef -> gmap string (list Hdl)) (e : IEvent Object).

Lemma fire_cleanup p σ c n e :
  fire (exec_all (cleanup p) σ) c n e =
    if decide (canvas p = Some c /\ n ∈ selectionEvents) then [] else fire σ c n e.
Proof.
  unfold fire. rewrite listeners_cleanup. case_decide; reflexivity.
Qed.

Lemma selectionEvents_created : "selection:created" ∈ selectionEvents.
Proof. apply elem_of_selectionEvents. auto. Qed.

Lemma selectionEvents_updated : "selection:updated" ∈ selectionEvents.
Proof. apply elem_of_selectionEvents. auto. Qed.

Lemma selectionEvents_cleared : "selection:cleared" ∈ selectionEvents.
Proof. apply elem_of_selectionEvents. auto. Qed.

(** X11. After the cleanup, firing any of the three selection events on
    the hook's canvas calls nothing at all: [off] with the event name alone
    drops every listener of that event, also those other code attached. *)
Theorem cleanup_silences_selection_events p c σ n e :
  canvas p = Some c ->
  n ∈ selectionEvents ->
  fire (exec_all (cleanup p) σ) c n e = [].
Proof.
  intros Hc Hn. rewrite fire_cleanup. rewrite decide_True by auto. reflexivity.
Qed.

(** X12. On a canvas that had no listener for the three selection events,
    the effect followed by its cleanup restores the listeners of every
    canvas and event as they were. *)
Theorem effect_cleanup_round_trip p σ :
  (forall c n, canvas p = Some c -> n ∈ selectionEvents -> listeners σ c n = []) ->
  forall c' n,
    listeners (exec_all (cleanup p) (exec_all (effect p) σ)) c' n = listeners σ c' n.
Proof.
  intros Hfree c' n. rewrite listeners_cleanup.
  destruct (decide (canvas p = Some c' /\ n ∈ selectionEvents)) as [[Hc Hn] | Hno].
  - symmetry. apply Hfree; assumption.
  - rewrite listeners_effect.
    destruct (decide (canvas p = Some c')) as [Hc | Hc]; [| apply app_nil_r].
    assert (n ∉ selectionEvents) as Hn by tauto.
    pose proof (attached_length (Object := Object) p n) as Hlen.
    rewrite decide_False in Hlen by assumption.
    destruct (attached p n); [apply app_nil_r | discriminate].
Qed.

(** X13. When the hook re-renders with other callbacks on the same canvas
    (cleanup of the old effect, then the new effect), each selection event
    reaches the new handler only, once: the old [setSelectedObjects] is
    not called any more. *)
Theorem rerender_replaces_handlers p1 p2 c σ e :
  canvas p1 = Some c ->
  canvas p2 = Some c ->
  let σ' := exec_all (effect p2) (exec_all (cleanup p1) (exec_all (effect p1) σ)) in
  fire σ' c "selection:created" e =
    [CallSetSelectedObjects (setSelectedObjects p2)
       (match selected e with Array objs => Array objs | Undefined => Array [] end)] /\
  fire σ' c "selection:updated" e =
    [CallSetSelectedObjects (setSelectedObjects p2)
       (match selected e with Array objs => Array objs | Undefined => Array [] end)] /\
  fire σ' c "selection:cleared" e =
    CallSetSelectedObjects (setSelectedObjects p2) (Array []) ::
    match clearSelectionCallBack p2 with
    | Some g => [CallClearSelection g]
    | None => []
    end.
Proof.
  intros Hc1 Hc2 σ'. subst σ'.
  rewrite !fire_effect by assumption. rewrite !fire_cleanup.
  rewrite (decide_True (P := _ /\ "selection:created" ∈ _))
    by (split; [assumption | apply selectionEvents_created]).
  rewrite (decide_True (P := _ /\ "selection:updated" ∈ _))
    by (split; [assumption | apply selectionEvents_updated]).
  rewrite (decide_True (P := _ /\ "selection:cleared" ∈ _))
    by (split; [assumption | apply selectionEvents_cleared]).
  unfold attached. repeat split.
  - rewrite decide_True by reflexivity. simpl.
    unfold on_selection_created, js_or. destruct (selected e); reflexivity.
  - rewrite decide_False by discriminate. rewrite decide_True by reflexivity. simpl.
    unfold on_selection_updated, js_or. destruct (selected e); reflexivity.
  - rewrite !decide_False by discriminate. rewrite decide_True by reflexivity. simpl.
    unfold on_selection_cleared, optional_call.
    destruct (clearSelectionCallBack p2); reflexivity.
Qed.
(** *** Together with useCanvas *)

Variables handleObjectModified handleSelection : Hdl.

(** X14. On a canvas that [useCanvas] set up, mounting and unmounting
    [useCanvasEvents] takes [handleSelection] off [selection:created] as
    well, so that event reaches nothing afterwards, while
    [object:modified] still reaches [handleObjectModified]. *)
Theorem cleanup_detaches_useCanvas_selection p c σ e :
  canvas p = Some c ->
  let σ0 := exec_all (UseCanvas.useCanvas_listeners handleObjectModified handleSelection c) σ in
  let σ1 := exec_all (cleanup p) (exec_all (effect p) σ0) in
  fire σ0 c "selection:created" e = fire σ c "selection:created" e ++ handleSelection e /\
  fire σ1 c "selection:created" e = [] /\
  fire σ1 c "object:modified" e = fire σ c "object:modified" e ++ handleObjectModified e.
Proof.
  intros Hc σ0 σ1.
  assert (forall n, fire σ0 c n e =
            fire σ c n e ++
            (if decide (n = "object:modified") then handleObjectModified e else []) ++
            (if decide (n = "selection:created") then handleSelection e else [])) as Hσ0.
  { intros n. subst σ0. unfold fire, UseCanvas.useCanvas_listeners.
    rewrite !exec_all_cons, exec_all_nil, !listeners_on.
    repeat case_decide; destruct_and?; simplify_eq;
      rewrite ?map_app, ?concat_app; simpl; rewrite ?app_nil_r, <- ?app_assoc;
      try reflexivity; exfalso; naive_solver. }
  split; [| split].
  - rewrite Hσ0. rewrite decide_False by discriminate.
    rewrite decide_True by reflexivity. reflexivity.
  - subst σ1. rewrite fire_cleanup.
    rewrite decide_True by (split; [assumption | apply selectionEvents_created]).
    reflexivity.
  - subst σ1. rewrite fire_cleanup.
    rewrite decide_False
      by (intros [_ Hin]; apply elem_of_selectionEvents in Hin;
          destruct Hin as [? | [? | ?]]; discriminate).
    rewrite fire_effect by assumption.
    unfold attached. rewrite !decide_False by discriminate. simpl.
    rewrite app_nil_r, Hσ0. rewrite decide_True by reflexivity.
    rewrite decide_False by discriminate. rewrite app_nil_r. reflexivity.
Qed.
End CanvasEventsFurther.

Lemma cleanup_silences_selection_events_witness :
  canvas sampleProps = Some 0%nat /\
  "selection:updated"%string ∈ selectionEvents /\
  fire (exec_all (cleanup sampleProps) (exec_all (effect sampleProps') noListeners))
       0%nat "selection:updated" sampleEvent = [].
Proof.
  split; [reflexivity |]. split; [apply selectionEvents_updated |].
  apply (cleanup_silences_selection_events sampleProps 0%nat
           (exec_all (effect sampleProps') noListeners) "selection:updated" sampleEvent).
  - reflexivity.
  - apply selectionEvents_updated.
Defined.

Lemma effect_cleanup_round_trip_witness :
  listeners (exec_all (cleanup sampleProps) (exec_all (effect sampleProps) noListeners))
            0%nat "selection:created" =
  listeners noListeners 0%nat "selection:created".
Proof.
  apply (effect_cleanup_round_trip sampleProps noListeners).
  intros c n _ _. reflexivity.
Defined.

Lemma rerender_replaces_handlers_witness :
  canvas sampleProps = Some 0%nat /\
  canvas sampleProps' = Some 0%nat /\
  fire (exec_all (effect sampleProps')
          (exec_all (cleanup sampleProps) (exec_all (effect sampleProps) noListeners)))
       0%nat "selection:cleared" sampleEvent =
    [CallSetSelectedObjects "setSelectedObjects'"%string (Array [])].
Proof.
  split; [reflexivity |]. split; [reflexivity |].
  apply (rerender_replaces_handlers sampleProps sampleProps' 0%nat noListeners sampleEvent);
    reflexivity.
Defined.

Lemma cleanup_detaches_useCanvas_selection_witness :
  canvas sampleProps = Some 0%nat /\
  fire (exec_all (UseCanvas.useCanvas_listeners sampleObjectModified sampleSelection 0%nat)
          noListeners) 0%nat "selection:created" sampleEvent =
    [CallClearSelection "handleSelection"%string] /\
  fire (exec_all (cleanup sampleProps)
          (exec_all (effect sampleProps)
             (exec_all (UseCanvas.useCanvas_listeners sampleObjectModified sampleSelection 0%nat)
                noListeners))) 0%nat "selection:created" sampleEvent = [] /\
  fire (exec_all (cleanup sampleProps)
          (exec_all (effect sampleProps)
             (exec_all (UseCanvas.useCanvas_listeners sampleObjectModified sampleSelection 0%nat)
                noListeners))) 0%nat "object:modified" sampleEvent =
    [CallClearSelection "handleObjectModified"%string].
Proof.
  split; [reflexivity |].
  apply (cleanup_detaches_useCanvas_selection sampleObjectModified sampleSelection
           sampleProps 0%nat noListeners sampleEvent).
  reflexivity.
Defined.

(** ** useAutosave *)

Import AutosaveLifecycle.

Section AutosaveFurther.
Context {ProjectId ProjectData Error : Type}.
Variable saveProjectOutcome : ProjectId -> ProjectData -> Completion Error unit.

Abbreviation Timers := (list (Pending ProjectId ProjectData Error)).
Abbreviation Run := (AutosaveLifecycle.HookRun ProjectId ProjectData Error).
Abbreviation Event := (AutosaveLifecycle.LifecycleEvent ProjectId ProjectData).
Implicit Types (projectId : ProjectId) (data : ProjectData) (ts older : Timers)
  (s : Run) (ev : Event) (evs : list Event).

(** X15. Whatever [saveProject] does, the autosave callback calls it once,
    first, never throws, and logs with [console.error] exactly when the
    call failed. *)
Theorem autosave_log_shape projectId data :
  autosave saveProjectOutcome projectId data =
    (CallSaveProject projectId data ::
       match saveProjectOutcome projectId data with
       | Normal _ => []
       | Throw error => [ConsoleError "Autosave failed:" error]
       end,
     Normal tt).
Proof.
  unfold autosave, await_saveProject, exec_bind.
  destruct (saveProjectOutcome projectId data) as [[] | error]; reflexivity.
Qed.

Lemma saves_autosave projectId data :
  saves (fst (autosave saveProjectOutcome projectId data)) = [(projectId, data)].
Proof.
  unfold autosave, await_saveProject, exec_bind.
  destruct (saveProjectOutcome projectId data) as [[] | error]; reflexivity.
Qed.

Lemma saves_app (l1 l2 : list (Effect ProjectId ProjectData Error)) :
  saves (l1 ++ l2) = saves l1 ++ saves l2.
Proof. unfold saves. apply omap_app. Qed.

Lemma run_cleanup_snoc older (latest : Pending ProjectId ProjectData Error) :
  run_cleanup (older ++ [latest]) = older ++ [None].
Proof.
  unfold run_cleanup. destruct (older ++ [latest]) as [| p ts] eqn:Hts.
  - destruct older; discriminate.
  - rewrite <- Hts, length_app. simpl.
    replace (Nat.pred (List.length older + 1)) with (List.length older + 0)%nat by lia.
    rewrite alter_app_r. reflexivity.
Qed.

Lemma run_cleanup_all_none ts :
  only_last_pending ts -> Forall (fun p => p = None) (run_cleanup ts).
Proof.
  intros [-> | (older & latest & -> & Hnone)].
  - constructor.
  - rewrite run_cleanup_snoc. apply Forall_app. split; [assumption |].
    repeat constructor.
Qed.

Lemma all_none_only_last ts :
  Forall (fun p => p = None) ts -> only_last_pending ts.
Proof.
  intros Hall. destruct ts as [| p ts' _] using rev_ind; [left; reflexivity |].
  right. exists ts', p. split; [reflexivity |].
  apply Forall_app in Hall. tauto.
Qed.

Lemma insert_none_only_last ts (k : nat) :
  only_last_pending ts -> only_last_pending (<[k := None]> ts).
Proof.
  intros [-> | (older & latest & -> & Hnone)]; [left; reflexivity |].
  right. destruct (decide (k < List.length older)%nat) as [Hlt | Hge].
  - exists (<[k := None]> older), latest. rewrite insert_app_l by assumption.
    split; [reflexivity |]. apply Forall_insert; [assumption | reflexivity].
  - assert (List.length older <= k)%nat as Hle by lia.
    rewrite insert_app_r_alt by exact Hle.
    match goal with |- context [<[?d := None]> [latest]] => destruct d end; simpl;
      eexists _, _; (split; [reflexivity | assumption]).
Qed.

Lemma lifecycle_step_only_last s ev :
  only_last_pending (timers s) -> only_last_pending (timers (lifecycle_step saveProjectOutcome s ev)).
Proof.
  intros Hs. destruct ev as [projectId data | k |]; simpl.
  - right. eexists _, _. split; [reflexivity |]. apply run_cleanup_all_none, Hs.
  - destruct (timers s !! k); [| assumption]. simpl. apply insert_none_only_last, Hs.
  - apply all_none_only_last, run_cleanup_all_none, Hs.
Qed.

Lemma lifecycle_only_last evs s :
  only_last_pending (timers s) -> only_last_pending (timers (lifecycle saveProjectOutcome evs s)).
Proof.
  revert s. induction evs as [| ev evs IH]; intros s Hs; simpl.
  - assumption.
  - apply IH, lifecycle_step_only_last, Hs.
Qed.

(** X16. Whatever happened to the component since it mounted, a debounced
    invocation can be pending only for the latest run of the effect: the
    earlier ones were cancelled by the cleanup or have fired. *)
Theorem pending_only_for_latest_run evs (k : nat) (task : Exec ProjectId ProjectData Error unit) :
  timers (lifecycle saveProjectOutcome evs mounting) !! k = Some (Some task) ->
  S k = List.length (timers (lifecycle saveProjectOutcome evs mounting)).
Proof.
  intros Hk.
  destruct (lifecycle_only_last evs mounting) as [Hnil | (older & latest & Hts & Hnone)].
  - left. reflexivity.
  - rewrite Hnil in Hk. discriminate.
  - rewrite Hts in *. rewrite length_app. simpl.
    apply lookup_app_Some in Hk. destruct Hk as [Hk | [Hge Hk]].
    + rewrite Forall_lookup in Hnone. specialize (Hnone _ _ Hk). discriminate.
    + unfold Pending in *.
      destruct (k - List.length older)%nat eqn:Hd; [lia | discriminate].
Qed.
Lemma lifecycle_app evs1 evs2 s :
  lifecycle saveProjectOutcome (evs1 ++ evs2) s =
    lifecycle saveProjectOutcome evs2 (lifecycle saveProjectOutcome evs1 s).
Proof. unfold lifecycle. apply foldl_app. Qed.

(** While the latest run's invocation of [autosave projectId data] is
    pending nothing was saved since [base]; once no invocation is pending,
    at most that one save was added. *)
Lemma supersede_step projectId data (base : list (ProjectId * ProjectData)) s ev :
  isDepsChanged ev = false ->
  ((exists older,
      timers s = older ++ [Some (autosave saveProjectOutcome projectId data)] /\
      Forall (fun p => p = None) older /\ saves (log s) = base) \/
   (Forall (fun p => p = None) (timers s) /\
    (saves (log s) = base \/ saves (log s) = base ++ [(projectId, data)]))) ->
  let s' := lifecycle_step saveProjectOutcome s ev in
  (exists older,
     timers s' = older ++ [Some (autosave saveProjectOutcome projectId data)] /\
     Forall (fun p => p = None) older /\ saves (log s') = base) \/
  (Forall (fun p => p = None) (timers s') /\
   (saves (log s') = base \/ saves (log s') = base ++ [(projectId, data)])).
Proof.
  intros Hev Hs. destruct ev as [? ? | k |]; [discriminate | |]; simpl.
  - destruct (timers s !! k) as [p |] eqn:Hk; [| exact Hs].
    destruct Hs as [(older & Hts & Hnone & Hlog) | [Hnone Hlog]]; simpl.
    + rewrite Hts in Hk |- *. apply lookup_app_Some in Hk.
      destruct Hk as [Hk | [Hge Hk]].
      * left. exists (<[k := None]> older).
        rewrite insert_app_l by (eapply lookup_lt_Some, Hk).
        rewrite Forall_lookup in Hnone. rewrite (Hnone _ _ Hk). simpl.
        rewrite app_nil_r. split; [reflexivity |]. split; [| assumption].
        apply Forall_insert; [| reflexivity]. apply Forall_lookup, Hnone.
      * right. unfold Pending in *.
        rewrite insert_app_r_alt by exact Hge.
        destruct (k - List.length older)%nat; [| discriminate].
        injection Hk as <-. simpl. split.
        -- apply Forall_app. split; [assumption | repeat constructor].
        -- right. rewrite saves_app, saves_autosave, Hlog. reflexivity.
    + right. rewrite Forall_lookup in Hnone. rewrite (Hnone _ _ Hk). simpl.
      rewrite app_nil_r. split; [| assumption].
      apply Forall_insert; [| reflexivity]. apply Forall_lookup, Hnone.
  - right. destruct Hs as [(older & Hts & Hnone & Hlog) | [Hnone Hlog]].
    + rewrite Hts, run_cleanup_snoc. split; [| left; assumption].
      apply Forall_app. split; [assumption | repeat constructor].
    + split; [| assumption]. apply run_cleanup_all_none, all_none_only_last, Hnone.
Qed.

(** X17. After a change of [projectId] or [data], and until the next one:
    whichever timers elapse, in whatever order and however often, and
    whether or not the component unmounts, [saveProject] is called at most
    once and only with the latest [projectId] and [data]; a save that an
    earlier render scheduled and that had not run yet never happens.  When
    the timer of the latest run is the next thing to happen, that one save
    is made. *)
Theorem superseded_saves_never_run evs0 projectId data evs :
  Forall (fun ev => isDepsChanged ev = false) evs ->
  let s := lifecycle saveProjectOutcome (evs0 ++ [DepsChanged projectId data]) mounting in
  (saves (log (lifecycle saveProjectOutcome evs s)) = saves (log s) \/
   saves (log (lifecycle saveProjectOutcome evs s)) = saves (log s) ++ [(projectId, data)]) /\
  saves (log (lifecycle saveProjectOutcome [TimerElapsed (Nat.pred (List.length (timers s)))] s))
    = saves (log s) ++ [(projectId, data)].
Proof.
  intros Hevs s.
  assert (exists older,
            timers s = older ++ [Some (autosave saveProjectOutcome projectId data)] /\
            Forall (fun p => p = None) older /\ saves (log s) = saves (log s)) as Hs.
  { subst s. rewrite lifecycle_app. simpl. eexists. split; [reflexivity |].
    split; [| reflexivity]. apply run_cleanup_all_none, lifecycle_only_last.
    left. reflexivity. }
  split.
  - assert (forall s0,
              ((exists older,
                  timers s0 = older ++ [Some (autosave saveProjectOutcome projectId data)] /\
                  Forall (fun p => p = None) older /\ saves (log s0) = saves (log s)) \/
               (Forall (fun p => p = None) (timers s0) /\
                (saves (log s0) = saves (log s) \/
                 saves (log s0) = saves (log s) ++ [(projectId, data)]))) ->
              saves (log (lifecycle saveProjectOutcome evs s0)) = saves (log s) \/
              saves (log (lifecycle saveProjectOutcome evs s0)) =
                saves (log s) ++ [(projectId, data)]) as Hgen.
    { clear Hs. generalize (saves (log s)) as base. intros base.
      induction Hevs as [| ev evs Hev _ IH]; intros s0 Hs0.
      - simpl. destruct Hs0 as [(_ & _ & _ & ->) | [_ Hlog]]; auto.
      - simpl. apply IH. apply supersede_step; assumption. }
    apply Hgen. left. exact Hs.
  - destruct Hs as (older & Hts & _ & _). simpl. rewrite Hts.
    unfold Pending in *. rewrite length_app. simpl.
    replace (Nat.pred (List.length older + 1)) with (List.length older) by lia.
    rewrite list_lookup_middle by reflexivity. simpl.
    rewrite saves_app, saves_autosave. reflexivity.
Qed.
End AutosaveFurther.

Lemma superseded_saves_never_run_witness :
  let evs : list (LifecycleEvent string string) :=
    [TimerElapsed 0; TimerElapsed 1; Unmounted; TimerElapsed 1] in
  let s := lifecycle rejectingSave
             ([DepsChanged "p"%string "v1"%string] ++ [DepsChanged "p"%string "v2"%string])
             mounting in
  (saves (log (lifecycle rejectingSave evs s)) = saves (log s) \/
   saves (log (lifecycle rejectingSave evs s)) = saves (log s) ++ [("p", "v2")]%string) /\
  saves (log (lifecycle rejectingSave [TimerElapsed (Nat.pred (List.length (timers s)))] s))
    = saves (log s) ++ [("p", "v2")]%string.
Proof.
  apply (superseded_saves_never_run rejectingSave
           [DepsChanged "p" "v1"]%string "p"%string "v2"%string
           [TimerElapsed 0; TimerElapsed 1; Unmounted; TimerElapsed 1]).
  repeat constructor.
Defined.

Lemma pending_only_for_latest_run_witness :
  timers (lifecycle rejectingSave
            [DepsChanged "p"%string "v1"%string; DepsChanged "p"%string "v2"%string]
            mounting) !! 1%nat
    = Some (Some (autosave rejectingSave "p"%string "v2"%string)) /\
  2%nat = List.length
            (timers (lifecycle rejectingSave
                       [DepsChanged "p"%string "v1"%string; DepsChanged "p"%string "v2"%string]
                       mounting)).
Proof.
  split; [reflexivity |].
  apply (pending_only_for_latest_run rejectingSave
           [DepsChanged "p"%string "v1"%string; DepsChanged "p"%string "v2"%string]
           1%nat (autosave rejectingSave "p"%string "v2"%string)).
  reflexivity.
Defined.

(** Two changes in a row, then both timers: only the second value is
    saved. *)
Example only_latest_saved :
  saves (log (lifecycle rejectingSave
                [DepsChanged "p" "v1"; DepsChanged "p" "v2";
                 TimerElapsed 0; TimerElapsed 1]%string mounting)) = [("p", "v2")]%string.
Proof. reflexivity. Qed.

(** ** exportProject *)

Import ExportProject.

Section ExportFurther.
Context {Number : Type}.
Variable falsy : Number -> bool.
Variables one point8 : Number.

(** X18. Provided the literals [1] and [0.8] are truthy, as they are in
    JavaScript, the quality [exportProject] hands to [toDataURL] is never a
    falsy number, whatever format and quality were asked for. *)
Theorem export_quality_never_falsy format quality (fmt : string) (q : Number) :
  falsy one = false ->
  falsy point8 = false ->
  exportProject falsy one point8 format quality = ToDataURL fmt q ->
  falsy q = false.
Proof.
  intros Hone Hpoint8. unfold exportProject, quality_or.
  destruct format; try discriminate;
    destruct quality as [q0 |]; [destruct (falsy q0) eqn:Hq0 | | destruct (falsy q0) eqn:Hq0 |];
    intros [= _ <-]; assumption.
Qed.

(** X19. A falsy quality, 0 in particular, is treated as no quality at all:
    the export uses the default of the format (1 for png, 0.8 for jpg), so
    quality 0 cannot be asked for. *)
Theorem export_falsy_quality_is_default format (q : Number) :
  falsy q = true ->
  exportProject falsy one point8 format (Some q) =
    exportProject falsy one point8 format None.
Proof.
  intros Hq. unfold exportProject, quality_or. rewrite Hq. reflexivity.
Qed.
End ExportFurther.

Lemma export_quality_never_falsy_witness :
  qFalsy qOne = false /\
  qFalsy qPoint8 = false /\
  exportProject qFalsy qOne qPoint8 jpg (Some (QArith_base.Qmake 0 1)) =
    ToDataURL "jpeg" qPoint8 /\
  qFalsy qPoint8 = false.
Proof.
  split; [reflexivity |]. split; [reflexivity |]. split; [reflexivity |].
  apply (export_quality_never_falsy qFalsy qOne qPoint8 jpg
           (Some (QArith_base.Qmake 0 1)) "jpeg" qPoint8); reflexivity.
Defined.

Lemma export_falsy_quality_is_default_witness :
  qFalsy (QArith_base.Qmake 0 1) = true /\
  exportProject qFalsy qOne qPoint8 png (Some (QArith_base.Qmake 0 1)) =
    exportProject qFalsy qOne qPoint8 png None.
Proof.
  split; [reflexivity |].
  apply (export_falsy_quality_is_default qFalsy qOne qPoint8 png (QArith_base.Qmake 0 1)).
  reflexivity.
Defined.

Example export_png_zero :
  exportProject qFalsy qOne qPoint8 png (Some (QArith_base.Qmake 0 1)) = ToDataURL "png" qOne.
Proof. reflexivity. Qed.

Example export_jpg_half :
  exportProject qFalsy qOne qPoint8 jpg (Some (QArith_base.Qmake 1 2)) =
    ToDataURL "jpeg" (QArith_base.Qmake 1 2).
Proof. reflexivity. Qed.
